(** * NEO close-approach database: models, linking, filters and queries

    A shallow embedding of [models.py], [database.py], [filters.py],
    [extract.py] and [write.py], followed by their properties.

    Python objects live in a store and are designated by references;
    [float] is the binary64 type of the Standard Library, which is what a
    Python [float] is; exceptions are values of the error monad [Exc];
    generators are finite traces of [Yield]s that end normally or with a
    raised exception. *)

From Stdlib Require Import ZArith String Floats Lia.
From stdpp Require Import base option list gmap strings.

Open Scope string_scope.
Open Scope Z_scope.

(** ** Python runtime: exceptions, values, comparison operators *)

(** The exceptions the embedded code can raise.  [AttributeError ty a] is
    Python's "'ty' object has no attribute 'a'". *)
Inductive exn : Type :=
  | AttributeError (type_name attr : string)
  | TypeError
  | ValueError
  | UnsupportedCriterionError.

Inductive Exc (A : Type) : Type :=
  | Ok (a : A)
  | Raise (e : exn).
Arguments Ok {A} a.
Arguments Raise {A} e.

#[global] Instance Exc_ret : MRet Exc := fun _ a => Ok a.
#[global] Instance Exc_bind : MBind Exc := fun _ _ k c =>
  match c with
  | Ok a => k a
  | Raise e => Raise e
  end.

(** [try: x = body except Exception: x = handler]; every [exn] above derives
    from [Exception]. *)
Definition try_except {A} (body : Exc A) (handler : A) : A :=
  match body with
  | Ok a => a
  | Raise _ => handler
  end.

(** A calendar date, [datetime.date]. *)
Record date : Type := Date { year : Z; month : Z; day : Z }.

(** [datetime.datetime] at minute precision. *)
Record datetime : Type := DateTime { dt_date : date; hour : Z; minute : Z }.

Definition date_eqb (a b : date) : bool :=
  (year a =? year b) && (month a =? month b) && (day a =? day b).

(** [a <= b] on dates: the order of (year, month, day). *)
Definition date_leb (a b : date) : bool :=
  (year a <? year b)
  || ((year a =? year b)
      && ((month a <? month b)
          || ((month a =? month b) && (day a <=? day b)))).

(** The values that reach a comparison in [filters.py]: the reference value
    of a filter and the attribute a filter reads. *)
Inductive pyval : Type :=
  | VNone
  | VBool (b : bool)
  | VFloat (x : float)
  | VDate (d : date).

(** [bool(v)], the test of [if v:]. *)
Definition truthy (v : pyval) : bool :=
  match v with
  | VNone => false
  | VBool b => b
  | VFloat x => negb (PrimFloat.eqb x 0)
  | VDate _ => true
  end.

Definition float_of_bool (b : bool) : float := if b then 1%float else 0%float.

(** The number a [bool] or [float] stands for in a mixed comparison. *)
Definition as_number (v : pyval) : option float :=
  match v with
  | VBool b => Some (float_of_bool b)
  | VFloat x => Some x
  | _ => None
  end.

Module operator.

(** The comparators of Python's [operator] module that [create_filters]
    uses. *)
Inductive t : Type := eq | ge | le.

(** [a == b]: never raises; values of unrelated types are unequal. *)
Definition py_eq (a b : pyval) : bool :=
  match a, b with
  | VNone, VNone => true
  | VDate d1, VDate d2 => date_eqb d1 d2
  | _, _ =>
      match as_number a, as_number b with
      | Some x, Some y => PrimFloat.eqb x y
      | _, _ => false
      end
  end.

(** [a <= b]: numbers with numbers, dates with dates, [TypeError]
    otherwise. *)
Definition py_le (a b : pyval) : Exc bool :=
  match a, b with
  | VDate d1, VDate d2 => Ok (date_leb d1 d2)
  | _, _ =>
      match as_number a, as_number b with
      | Some x, Some y => Ok (PrimFloat.leb x y)
      | _, _ => Raise TypeError
      end
  end.

(** [op(a, b)]. *)
Definition apply (op : t) (a b : pyval) : Exc bool :=
  match op with
  | eq => Ok (py_eq a b)
  | le => py_le a b
  | ge => py_le b a
  end.

End operator.

(** References to objects in the store. *)
Definition ref : Type := nat.

(** ** models.py *)

Module NearEarthObject.

Record t : Type := Build {
  designation : string;
  name : option string;
  diameter : float;
  hazardous : option bool;
  approaches : list ref
}.

(** The keyword arguments [**info].  [info.get(k)] is [None] both when
    [k] is missing and when it is bound to [None], so each field is an
    [option]; the types are those [extract.create_neo] passes. *)
Record kwargs : Type := Info {
  info_designation : option string;
  info_name : option string;
  info_diameter : option float;
  info_hazardous : option bool
}.

(** [str(x)] on a string or [None]. *)
Definition str (x : option string) : string :=
  match x with
  | Some s => s
  | None => "None"
  end.

(** [float(x)] on a float or [None]. *)
Definition float_ (x : option float) : Exc float :=
  match x with
  | Some d => Ok d
  | None => Raise TypeError
  end.

(** [dict.get] never raises. *)
Definition get {A} (field : option A) : Exc (option A) := Ok field.

Definition __init__ (info : kwargs) : t :=
  let approaches := [] in
  let designation :=
    try_except (d ← get (info_designation info); Ok (str d)) "" in
  let name := try_except (get (info_name info)) None in
  let diameter :=
    try_except (d ← get (info_diameter info); float_ d) nan in
  let hazardous :=
    try_except (get (info_hazardous info)) (Some false) in
  Build designation name diameter hazardous approaches.

(** [bool(self.name)]: [None] and the empty string are falsy. *)
Definition name_truthy (n : option string) : bool :=
  match n with
  | Some s => negb (String.eqb s "")
  | None => false
  end.

Definition fullname (self : t) : string :=
  if name_truthy (name self)
  then designation self ++ " (" ++ str (name self) ++ ")"
  else designation self.

Definition append_approach (self : t) (a : ref) : t :=
  Build (designation self) (name self) (diameter self) (hazardous self)
        (approaches self ++ [a]).

#[global] Instance inhabited : Inhabited t :=
  populate (Build "" None nan None []).

End NearEarthObject.

Module CloseApproach.

Record t : Type := Build {
  designation : string;
  time : option datetime;
  distance : float;
  velocity : float;
  neo : option ref
}.

#[global] Instance inhabited : Inhabited t :=
  populate (Build "" None 0 0 None).

(** The keyword arguments [**data], as [extract.create_ca] passes them:
    the fields of a JSON row are strings, [neos] is an object or
    [None]. *)
Record kwargs : Type := Data {
  data_pdes : option string;
  data_time : option string;
  data_distance : option string;
  data_velocity : option string;
  data_neos : option ref
}.

Section Init.

(** [helpers.cd_to_datetime] is not among the sources: it is taken as
    a parameter, as is the parser behind [float(s)] on a string. *)
Variable cd_to_datetime : option string -> Exc datetime.
Variable float_of_string : string -> Exc float.

Definition float_ (x : option string) : Exc float :=
  match x with
  | Some s => float_of_string s
  | None => Raise TypeError
  end.

Definition __init__ (data : kwargs) : t :=
  let designation :=
    try_except (Ok (NearEarthObject.str (data_pdes data))) "" in
  let time :=
    try_except (t ← cd_to_datetime (data_time data); Ok (Some t)) None in
  let distance := try_except (float_ (data_distance data)) 0%float in
  let velocity := try_except (float_ (data_velocity data)) 0%float in
  let neo := try_except (Ok (data_neos data)) None in
  Build designation time distance velocity neo.

End Init.

End CloseApproach.

(** ** The object store *)

(** Both classes are mutable and compared by identity, so objects are kept
    in a store and designated by references; a reference always designates
    an allocated object, hence the total lookup [!!!]. *)
Record Store : Type := MkStore {
  neos : gmap ref NearEarthObject.t;
  cas : gmap ref CloseApproach.t
}.

(** [o.approaches.append(a)] on the object that [o] designates. *)
Definition append_to (st : Store) (o a : ref) : Store :=
  let obj := NearEarthObject.append_approach (neos st !!! o) a in
  MkStore (<[o := obj]> (neos st)) (cas st).

(** ** Generators *)

(** What a consumer observes of a generator over a finite source: the
    values yielded one after the other, then either exhaustion or an
    exception raised by [next]. *)
Inductive gen (A : Type) : Type :=
  | Stop
  | Throw (e : exn)
  | Yield (a : A) (rest : gen A).
Arguments Stop {A}.
Arguments Throw {A} e.
Arguments Yield {A} a rest.

(** [iter(xs)] for a list. *)
Fixpoint iter {A} (xs : list A) : gen A :=
  match xs with
  | [] => Stop
  | x :: xs' => Yield x (iter xs')
  end.

(** The values yielded before the generator ends. *)
Fixpoint yielded {A} (g : gen A) : list A :=
  match g with
  | Stop | Throw _ => []
  | Yield a rest => a :: yielded rest
  end.

(** How the generator ends: [None] for exhaustion, [Some e] for a raise. *)
Fixpoint raised {A} (g : gen A) : option exn :=
  match g with
  | Stop => None
  | Throw e => Some e
  | Yield _ rest => raised rest
  end.

(** ** filters.py *)

(** The class of a filter: [AttributeFilter] itself or one of its five
    subclasses. *)
Inductive filter_class : Type :=
  | AttributeFilter_
  | DateFilter_
  | DistanceFilter_
  | VelocityFilter_
  | DiameterFilter_
  | HazardFilter_.

Module AttributeFilter.

Record t : Type := Build {
  cls : filter_class;
  op : operator.t;
  value : pyval
}.

Definition of_hazardous (h : option bool) : pyval :=
  match h with
  | Some b => VBool b
  | None => VNone
  end.

(** The classmethod [get], dispatched on the class. *)
Definition get (c : filter_class) (st : Store) (approach : CloseApproach.t)
  : Exc pyval :=
  match c with
  | AttributeFilter_ => Raise UnsupportedCriterionError
  | DateFilter_ =>
      match CloseApproach.time approach with
      | Some t => Ok (VDate (dt_date t))
      | None => Raise (AttributeError "NoneType" "date")
      end
  | DistanceFilter_ => Ok (VFloat (CloseApproach.distance approach))
  | VelocityFilter_ => Ok (VFloat (CloseApproach.velocity approach))
  | DiameterFilter_ =>
      match CloseApproach.neo approach with
      | Some o => Ok (VFloat (NearEarthObject.diameter (neos st !!! o)))
      | None => Raise (AttributeError "NoneType" "diameter")
      end
  | HazardFilter_ =>
      match CloseApproach.neo approach with
      | Some o =>
          Ok (of_hazardous (NearEarthObject.hazardous (neos st !!! o)))
      | None => Raise (AttributeError "NoneType" "hazardous")
      end
  end.

(** [self(approach)]: [self.op(self.get(approach), self.value)]. *)
Definition __call__ (self : t) (st : Store) (approach : CloseApproach.t)
  : Exc bool :=
  x ← get (cls self) st approach;
  operator.apply (op self) x (value self).

End AttributeFilter.

Definition DateFilter := AttributeFilter.Build DateFilter_.
Definition DistanceFilter := AttributeFilter.Build DistanceFilter_.
Definition VelocityFilter := AttributeFilter.Build VelocityFilter_.
Definition DiameterFilter := AttributeFilter.Build DiameterFilter_.
Definition HazardFilter := AttributeFilter.Build HazardFilter_.

(** [if criterion: queries.append(f)]. *)
Definition append_if (criterion : pyval) (f : AttributeFilter.t)
    (queries : list AttributeFilter.t) : list AttributeFilter.t :=
  if truthy criterion then queries ++ [f] else queries.

Definition create_filters
    (date start_date end_date distance_min distance_max
     velocity_min velocity_max diameter_min diameter_max hazardous : pyval)
    : list AttributeFilter.t :=
  let queries := [] in
  let queries := append_if date (DateFilter operator.eq date) queries in
  let queries :=
    append_if start_date (DateFilter operator.ge start_date) queries in
  let queries := append_if end_date (DateFilter operator.le end_date) queries in
  let queries :=
    append_if distance_min (DistanceFilter operator.ge distance_min) queries in
  let queries :=
    append_if distance_max (DistanceFilter operator.le distance_max) queries in
  let queries :=
    append_if velocity_min (VelocityFilter operator.ge velocity_min) queries in
  let queries :=
    append_if velocity_max (VelocityFilter operator.le velocity_max) queries in
  let queries :=
    append_if diameter_min (DiameterFilter operator.ge diameter_min) queries in
  let queries :=
    append_if diameter_max (DiameterFilter operator.le diameter_max) queries in
  let queries :=
    append_if hazardous (HazardFilter operator.eq hazardous) queries in
  queries.

(** [for values in range(0, n): try: yield next(iterator) except
    StopIteration: break], with [k] the number of values of the range. *)
Fixpoint limit_for {A} (k : nat) (iterator : gen A) : gen A :=
  match k with
  | O => Stop
  | S k' =>
      match iterator with
      | Stop => Stop
      | Throw e => Throw e
      | Yield a rest => Yield a (limit_for k' rest)
      end
  end.

(** [while cond: try: yield next(iterator) except StopIteration: break];
    the condition [n != 1] does not change during the loop. *)
Fixpoint limit_while {A} (cond : bool) (iterator : gen A) : gen A :=
  if cond then
    match iterator with
    | Stop => Stop
    | Throw e => Throw e
    | Yield a rest => Yield a (limit_while cond rest)
    end
  else Stop.

(** [n] is an integer or [None]. *)
Definition int_truthy (n : option Z) : bool :=
  match n with
  | Some z => negb (z =? 0)
  | None => false
  end.

Definition int_ne_1 (n : option Z) : bool :=
  match n with
  | Some z => negb (z =? 1)
  | None => true
  end.

(** [len(range(0, n))]. *)
Definition range_len (n : option Z) : nat :=
  match n with
  | Some z => Z.to_nat z
  | None => O
  end.

Definition limit {A} (iterator : gen A) (n : option Z) : gen A :=
  if int_truthy n then limit_for (range_len n) iterator
  else limit_while (int_ne_1 n) iterator.

(** ** database.py *)

Module NEODatabase.

Record t : Type := Build {
  _neos : list ref;
  _approaches : list ref
}.

(** [for values in self._approaches: values.neo.approaches.append(values)].
    The store is returned as it is when the loop ends or raises. *)
Fixpoint link (st : Store) (approaches : list ref) : Store * Exc unit :=
  match approaches with
  | [] => (st, Ok ())
  | values :: rest =>
      match CloseApproach.neo (cas st !!! values) with
      | Some o => link (append_to st o values) rest
      | None => (st, Raise (AttributeError "NoneType" "approaches"))
      end
  end.

Definition __init__ (st : Store) (neos approaches : list ref)
  : Store * Exc t :=
  let self := Build neos approaches in
  let (st', r) := link st approaches in
  (st', _ ← r; Ok self).

(** [None] is the [return] without a value. *)
Fixpoint find_neo (st : Store) (p : NearEarthObject.t -> bool)
    (l : list ref) : option ref :=
  match l with
  | [] => None
  | neo :: rest => if p (neos st !!! neo) then Some neo else find_neo st p rest
  end.

Definition get_neo_by_designation (self : t) (st : Store)
    (designation : string) : option ref :=
  find_neo st
    (fun neo => String.eqb (NearEarthObject.designation neo) designation)
    (_neos self).

(** [name] is a string or [None]; [==] on those is plain equality. *)
Definition get_neo_by_name (self : t) (st : Store) (name : option string)
  : option ref :=
  find_neo st
    (fun neo => bool_decide (NearEarthObject.name neo = name))
    (_neos self).

(** [all(map(lambda f: f(approach), filters))]: stops at the first
    filter that is false or raises. *)
Fixpoint all_map (st : Store) (approach : CloseApproach.t)
    (filters : list AttributeFilter.t) : Exc bool :=
  match filters with
  | [] => Ok true
  | f :: rest =>
      b ← AttributeFilter.__call__ f st approach;
      if b : bool then all_map st approach rest else Ok false
  end.

(** The loop of the [if filters:] branch. *)
Fixpoint query_filtered (st : Store) (filters : list AttributeFilter.t)
    (approaches : list ref) : gen ref :=
  match approaches with
  | [] => Stop
  | approach :: rest =>
      match all_map st (cas st !!! approach) filters with
      | Raise e => Throw e
      | Ok true => Yield approach (query_filtered st filters rest)
      | Ok false => query_filtered st filters rest
      end
  end.

Definition query (self : t) (st : Store) (filters : list AttributeFilter.t)
  : gen ref :=
  match filters with
  | _ :: _ => query_filtered st filters (_approaches self)
  | [] => iter (_approaches self)
  end.

End NEODatabase.

(** ** extract.py *)

Module extract.

(** What the two loaders work on: the object store and the module-level
    dictionary [pdes_dict], which lives from one call to the next. *)
Record World : Type := MkWorld {
  store : Store;
  pdes_dict : gmap string ref
}.

(** A new object is stored under a reference that designates no object
    yet. *)
Definition new_neo (st : Store) (obj : NearEarthObject.t) : Store * ref :=
  let r := fresh (dom (neos st)) in
  (MkStore (<[r := obj]> (neos st)) (cas st), r).

Definition new_ca (st : Store) (obj : CloseApproach.t) : Store * ref :=
  let r := fresh (dom (cas st)) in
  (MkStore (neos st) (<[r := obj]> (cas st)), r).

Definition create_neo (a : string) (b : option string) (c : float) (d : bool)
  : NearEarthObject.t :=
  NearEarthObject.__init__ (NearEarthObject.Info (Some a) b (Some c) (Some d)).

(** A row of [csv.DictReader]: the fields by column name; a column that
    the file or the row lacks reads as [None]. *)
Definition csv_row : Type := gmap string string.

(** A row of [json_data['data']]: a list of JSON strings or nulls. *)
Definition json_row : Type := list (option string).

(** The outcome of [load_approaches]: the constructor it calls catches its
    own exceptions, so what can escape is the [IndexError] of a row that
    is too short. *)
Inductive loaded (A : Type) : Type :=
  | Loaded (a : A)
  | RaisedIndexError.
Arguments Loaded {A} a.
Arguments RaisedIndexError {A}.

(** [name = elem.get('name'); if not name: name = None]. *)
Definition name_of (elem : csv_row) : option string :=
  let name := elem !! "name" in
  if NearEarthObject.name_truthy name then name else None.

(** [pdes = elem.get('pdes'); if not pdes: pdes = "nan"]. *)
Definition pdes_of (elem : csv_row) : string :=
  let pdes := elem !! "pdes" in
  if NearEarthObject.name_truthy pdes then NearEarthObject.str pdes
  else "nan".

(** [ishaz = elem.get('pha')], then [True] for ["Y"] and [False]
    otherwise. *)
Definition ishaz_of (elem : csv_row) : bool :=
  bool_decide (elem !! "pha" = Some "Y").

Section Loaders.

(** [helpers.cd_to_datetime] and the parser behind [float(s)] on a string,
    as for [CloseApproach.__init__]. *)
Variable cd_to_datetime : option string -> Exc datetime.
Variable float_of_string : string -> Exc float.

(** [dia = elem.get("diameter")], then not-a-number when it is missing or
    empty and [float(dia)] otherwise, which may raise. *)
Definition dia_of (elem : csv_row) : Exc float :=
  let dia := elem !! "diameter" in
  if NearEarthObject.name_truthy dia
  then float_of_string (NearEarthObject.str dia)
  else Ok nan.

Definition create_ca (a b c d : option string) (e : option ref)
  : CloseApproach.t :=
  CloseApproach.__init__ cd_to_datetime float_of_string
    (CloseApproach.Data a b c d e).

(** The loop of [load_neos] over the rows of the reader, [neos] being the
    list built so far.  The [print] of each object is not part of the
    result. *)
Fixpoint load_neos_loop (w : World) (neos : list ref) (rows : list csv_row)
  : World * Exc (list ref) :=
  match rows with
  | [] => (w, Ok neos)
  | elem :: rest =>
      let name := name_of elem in
      let pdes := pdes_of elem in
      match dia_of elem with
      | Raise e => (w, Raise e)
      | Ok dia =>
          let ishaz := ishaz_of elem in
          let (st, modelsNEO) :=
            new_neo (store w) (create_neo pdes name dia ishaz) in
          load_neos_loop
            (MkWorld st (<[pdes := modelsNEO]> (pdes_dict w)))
            (neos ++ [modelsNEO]) rest
      end
  end.

Definition load_neos (w : World) (rows : list csv_row)
  : World * Exc (list ref) :=
  load_neos_loop w [] rows.

(** The loop of [load_approaches] over [json_data['data']]. *)
Fixpoint load_approaches_loop (w : World) (ca_list : list ref)
    (rows : list json_row) : World * loaded (list ref) :=
  match rows with
  | [] => (w, Loaded ca_list)
  | key :: rest =>
      match key !! 0%nat, key !! 3%nat, key !! 4%nat, key !! 7%nat with
      | Some desig, Some time, Some dist, Some velocity =>
          let neo := desig ≫= (fun s => pdes_dict w !! s) in
          let (st, modelsCA) :=
            new_ca (store w) (create_ca desig time dist velocity neo) in
          load_approaches_loop (MkWorld st (pdes_dict w))
            (ca_list ++ [modelsCA]) rest
      | _, _, _, _ => (w, RaisedIndexError)
      end
  end.

Definition load_approaches (w : World) (rows : list json_row)
  : World * loaded (list ref) :=
  load_approaches_loop w [] rows.

End Loaders.

End extract.

(** The designation [load_approaches] reads in a row, when the row has
    one that is a string. *)
Definition row_designation (key : extract.json_row) : option string :=
  mjoin (key !! 0%nat).

(** ** write.py *)

Module write.

(** The dictionary [row] handed to [csv.DictWriter.writerow], by key. *)
Record csv_fields : Type := Row {
  datetime_utc : option datetime;
  distance_au : float;
  velocity_km_s : float;
  designation : string;
  name : option string;
  diameter_km : float;
  potentially_hazardous : option bool
}.

(** What the writer is asked to write: the header, then rows. *)
Inductive csv_line : Type :=
  | Header
  | Fields (row : csv_fields).

(** The loop of [write_to_csv]: [written] is what the file holds so far.
    [StopIteration] ends the loop; any other exception leaves it, and the
    [with] statement closes the file with what was written. *)
Fixpoint csv_loop (st : Store) (dict : gen ref) (written : list csv_line)
  : list csv_line * Exc unit :=
  match dict with
  | Stop => (written, Ok ())
  | Throw e => (written, Raise e)
  | Yield a rest =>
      let next_dict := cas st !!! a in
      let t := CloseApproach.time next_dict in
      let d := CloseApproach.distance next_dict in
      let v := CloseApproach.velocity next_dict in
      let de := CloseApproach.designation next_dict in
      match CloseApproach.neo next_dict with
      | None => (written, Raise (AttributeError "NoneType" "name"))
      | Some o =>
          let n := NearEarthObject.name (neos st !!! o) in
          let dia := NearEarthObject.diameter (neos st !!! o) in
          let h := NearEarthObject.hazardous (neos st !!! o) in
          let row := Row t d v de n dia h in
          csv_loop st rest (written ++ [Fields row])
      end
  end.

(** The result is the content of the file and how the call ends.  The
    [print] of [results] is not part of it. *)
Definition write_to_csv (st : Store) (results : gen ref)
  : list csv_line * Exc unit :=
  csv_loop st results [Header].







Section Json.

(** [helpers.datetime_to_str], behind the property [time_str], is not
    among the sources: it is taken as a parameter. *)
Variable datetime_to_str : option datetime -> Exc string.




End Json.

End write.

(** ** Vocabulary of the statements *)

(** Filter [f] evaluates true on the approach that [a] designates: the call
    returns, and returns [True]. *)
Definition evaluates_true (st : Store) (a : ref) (f : AttributeFilter.t)
  : bool :=
  match AttributeFilter.__call__ f st (cas st !!! a) with
  | Ok true => true
  | _ => false
  end.

(** Every filter of the list evaluates true on [a]. *)
Definition passes (st : Store) (filters : list AttributeFilter.t) (a : ref)
  : bool :=
  forallb (evaluates_true st a) filters.

(** The filters are evaluated on [a] without a raise: [all] returns. *)
Definition evaluates (st : Store) (filters : list AttributeFilter.t) (a : ref)
  : Prop :=
  exists b : bool, NEODatabase.all_map st (cas st !!! a) filters = Ok b.

(** The approach that [a] designates refers to the object [o]. *)
Definition refers_to (st : Store) (o a : ref) : bool :=
  bool_decide (CloseApproach.neo (cas st !!! a) = Some o).

(** The approach that [a] designates belongs to an object whose
    [hazardous] flag is [False]. *)
Definition not_hazardous (st : Store) (a : ref) : bool :=
  match CloseApproach.neo (cas st !!! a) with
  | Some o =>
      bool_decide (NearEarthObject.hazardous (neos st !!! o) = Some false)
  | None => false
  end.

(** A criterion as [create_filters] takes it into account: one that is
    falsy counts as [None]. *)
Definition specified (v : pyval) : pyval := if truthy v then v else VNone.

(** ** Criteria, typed as the command line supplies them *)

(** Dates for the three date options, floats for the six bounds, a boolean
    for the hazard flag; [None] for an option left out. *)
Record criteria : Type := Criteria {
  crit_date : option date;
  crit_start_date : option date;
  crit_end_date : option date;
  crit_distance_min : option float;
  crit_distance_max : option float;
  crit_velocity_min : option float;
  crit_velocity_max : option float;
  crit_diameter_min : option float;
  crit_diameter_max : option float;
  crit_hazardous : option bool
}.

Definition of_date (d : option date) : pyval :=
  match d with Some d => VDate d | None => VNone end.

Definition of_float (x : option float) : pyval :=
  match x with Some x => VFloat x | None => VNone end.

Definition of_bool (b : option bool) : pyval :=
  match b with Some b => VBool b | None => VNone end.

Definition filters_of (c : criteria) : list AttributeFilter.t :=
  create_filters (of_date (crit_date c)) (of_date (crit_start_date c))
    (of_date (crit_end_date c))
    (of_float (crit_distance_min c)) (of_float (crit_distance_max c))
    (of_float (crit_velocity_min c)) (of_float (crit_velocity_max c))
    (of_float (crit_diameter_min c)) (of_float (crit_diameter_max c))
    (of_bool (crit_hazardous c)).

(** A bound that is given must hold. *)
Definition bound {X} (v : option X) (test : X -> bool) : bool :=
  match v with
  | Some x => test x
  | None => true
  end.

(** A float bound that is taken into account: given and not zero. *)
Definition nonzero (x : option float) : option float :=
  match x with
  | Some x => if PrimFloat.eqb x 0 then None else Some x
  | None => None
  end.

(** A hazard flag that is taken into account: given and [True]. *)
Definition only_true (b : option bool) : option bool :=
  match b with
  | Some true => Some true
  | _ => None
  end.

(** The approach, of time [t] and object [obj], meets the criteria. *)
Definition meets (c : criteria) (approach : CloseApproach.t) (t : datetime)
    (obj : NearEarthObject.t) : bool :=
  let d := dt_date t in
  let dist := CloseApproach.distance approach in
  let vel := CloseApproach.velocity approach in
  let diam := NearEarthObject.diameter obj in
  bound (crit_date c) (fun x => date_eqb d x)
  && bound (crit_start_date c) (fun x => date_leb x d)
  && bound (crit_end_date c) (fun x => date_leb d x)
  && bound (nonzero (crit_distance_min c)) (fun x => PrimFloat.leb x dist)
  && bound (nonzero (crit_distance_max c)) (fun x => PrimFloat.leb dist x)
  && bound (nonzero (crit_velocity_min c)) (fun x => PrimFloat.leb x vel)
  && bound (nonzero (crit_velocity_max c)) (fun x => PrimFloat.leb vel x)
  && bound (nonzero (crit_diameter_min c)) (fun x => PrimFloat.leb x diam)
  && bound (nonzero (crit_diameter_max c)) (fun x => PrimFloat.leb diam x)
  && bound (only_true (crit_hazardous c))
       (fun _ => bool_decide (NearEarthObject.hazardous obj = Some true)).

(** The approach that [a] designates has a time and an object, and meets
    the criteria. *)
Definition selected (c : criteria) (st : Store) (a : ref) : bool :=
  let approach := cas st !!! a in
  match CloseApproach.time approach, CloseApproach.neo approach with
  | Some t, Some o => meets c approach t (neos st !!! o)
  | _, _ => false
  end.

(** A distance or velocity filter whose reference value is a number. *)
Definition numeric_bound (f : AttributeFilter.t) : Prop :=
  (AttributeFilter.cls f = DistanceFilter_
   \/ AttributeFilter.cls f = VelocityFilter_)
  /\ is_Some (as_number (AttributeFilter.value f)).

(** Every entry of [pdes_dict] leads to a stored object that bears the
    designation it is filed under. *)
Definition consistent (w : extract.World) : Prop :=
  forall s r,
    extract.pdes_dict w !! s = Some r ->
    exists o,
      neos (extract.store w) !! r = Some o
      /\ NearEarthObject.designation o = s.

(** The object that row [elem] gives rise to, once its diameter [dia] is
    read. *)
Definition neo_of_row (elem : extract.csv_row) (dia : float)
  : NearEarthObject.t :=
  extract.create_neo (extract.pdes_of elem) (extract.name_of elem) dia
    (extract.ishaz_of elem).

(** The generator that yields the values of [xs] and goes on as [rest]. *)
Fixpoint yields {A} (xs : list A) (rest : gen A) : gen A :=
  match xs with
  | [] => rest
  | x :: xs' => Yield x (yields xs' rest)
  end.

(** [line] is the row of the approach that [a] designates and of its
    object. *)
Definition is_row_of (st : Store) (a : ref) (line : write.csv_line) : Prop :=
  exists o,
    CloseApproach.neo (cas st !!! a) = Some o
    /\ line
       = write.Fields
           (write.Row (CloseApproach.time (cas st !!! a))
              (CloseApproach.distance (cas st !!! a))
              (CloseApproach.velocity (cas st !!! a))
              (CloseApproach.designation (cas st !!! a))
              (NearEarthObject.name (neos st !!! o))
              (NearEarthObject.diameter (neos st !!! o))
              (NearEarthObject.hazardous (neos st !!! o))).

(** How a generator that has yielded approaches with an object makes
    [write_to_csv] end: normally when it is exhausted, with the exception
    it raises, or with the [AttributeError] of an approach without
    object. *)
Definition csv_ending (st : Store) (tail : gen ref) : Exc unit :=
  match tail with
  | Stop => Ok ()
  | Throw e => Raise e
  | Yield _ _ => Raise (AttributeError "NoneType" "name")
  end.

(** ** A sample data set *)

Module Sample.

Local Open Scope nat_scope.

Definition neo (designation : string) (name : option string)
    (diameter : option float) (hazardous : bool) : NearEarthObject.t :=
  NearEarthObject.__init__
    (NearEarthObject.Info (Some designation) name diameter (Some hazardous)).

(** Five objects, two of them hazardous, two without a name. *)
Definition objects : gmap ref NearEarthObject.t :=
  map_seq 0
    [ neo "433" (Some "Eros") (Some 16.5%float) false;
      neo "2101" (Some "Adonis") (Some 0.5%float) true;
      neo "2020 AB" None None false;
      neo "99942" (Some "Apophis") (Some 0.25%float) true;
      neo "2019 XY" None None false ].

Definition at_ (y m d h mi : Z) : option datetime :=
  Some (DateTime (Date y m d) h mi).

(** Approaches 0 to 4 refer to the objects 0 to 4; approach 5 carries a
    designation that no object has, so the loader left its [neo] at
    [None]; approach 6 has a time the loader could not parse. *)
Definition events : gmap ref CloseApproach.t :=
  map_seq 0
    [ CloseApproach.Build "433" (at_ 2020 1 1 12 30) 0.0625 10 (Some 0);
      CloseApproach.Build "2101" (at_ 2020 1 2 0 15) 0.25 20 (Some 1);
      CloseApproach.Build "2020 AB" (at_ 2020 2 1 7 0) 0.5 5 (Some 2);
      CloseApproach.Build "99942" (at_ 2029 4 13 21 46) 0.125 7.5 (Some 3);
      CloseApproach.Build "2019 XY" (at_ 2020 3 1 1 1) 0.375 12 (Some 4);
      CloseApproach.Build "NOPE" (at_ 2020 1 1 9 0) 0.125 3 None;
      CloseApproach.Build "433" None 0.0625 10 (Some 0) ].

Definition unlinked : Store := MkStore objects events.

Definition linking : Store * Exc NEODatabase.t :=
  NEODatabase.__init__ unlinked [0; 1; 2; 3; 4] [0; 1; 2; 3; 4].

Definition linked : Store := linking.1.

Definition db : NEODatabase.t :=
  NEODatabase.Build [0; 1; 2; 3; 4] [0; 1; 2; 3; 4].

(** A database over the approach without a time and an approach of the
    first day of 2020. *)
Definition undated : Store * Exc NEODatabase.t :=
  NEODatabase.__init__ unlinked [0; 1; 2; 3; 4] [6; 0].

(** An object built directly with the empty string for a name. *)
Definition nameless : Store :=
  MkStore (map_seq 0 [ neo "2021 CD" (Some "") None false ]) ∅.

(** A parser for the floats of the sample files. *)
Definition parse_float (s : string) : Exc float :=
  let table : list (string * float) :=
    [ ("16.5", 16.5%float); ("0.5", 0.5%float); ("0.25", 0.25%float);
      ("0.125", 0.125%float); ("10", 10%float); ("20", 20%float) ] in
  match List.find (fun entry => String.eqb entry.1 s) table with
  | Some entry => Ok entry.2
  | None => Raise ValueError
  end.

(** A parser for the timestamps of the sample files. *)
Definition parse_time (s : option string) : Exc datetime :=
  match s with
  | None => Raise TypeError
  | Some s =>
      if String.eqb s "2020-Jan-01 12:30"
      then Ok (DateTime (Date 2020 1 1) 12 30)
      else if String.eqb s "2020-Jan-02 00:15"
      then Ok (DateTime (Date 2020 1 2) 0 15)
      else Raise ValueError
  end.

(** A formatter for the timestamps of the sample data. *)
Definition format_time (t : option datetime) : Exc string :=
  match t with
  | None => Raise (AttributeError "NoneType" "strftime")
  | Some _ => Ok "2020-01-01 12:30"
  end.

Definition csv (pdes name diameter pha : string) : extract.csv_row :=
  list_to_map
    [ ("pdes", pdes); ("name", name); ("diameter", diameter); ("pha", pha) ].

(** Three object rows: one complete, one without name and diameter, one
    hazardous. *)
Definition csv_rows : list extract.csv_row :=
  [ csv "433" "Eros" "16.5" "N";
    csv "2020 AB" "" "" "N";
    csv "2101" "Adonis" "0.5" "Y" ].

(** An object row whose diameter is not a number. *)
Definition bad_row : extract.csv_row := csv "2019 XY" "" "wide" "N".

Definition json (des cd dist v_rel : string) : extract.json_row :=
  [ Some des; Some "1"; Some "2458849.5"; Some cd; Some dist; Some dist;
    Some dist; Some v_rel; Some v_rel; Some "00:01"; Some "18.1" ].

(** Two approach rows of known objects. *)
Definition json_rows : list extract.json_row :=
  [ json "433" "2020-Jan-01 12:30" "0.25" "10";
    json "2101" "2020-Jan-02 00:15" "0.125" "20" ].

(** The same with a row of an unknown designation in between. *)
Definition json_rows_unknown : list extract.json_row :=
  [ json "433" "2020-Jan-01 12:30" "0.25" "10";
    json "NOPE" "2020-Jan-01 12:30" "0.5" "10";
    json "2101" "2020-Jan-02 00:15" "0.125" "20" ].

(** Nothing loaded yet. *)
Definition nothing : extract.World := extract.MkWorld (MkStore ∅ ∅) ∅.

Definition after_neos : extract.World * Exc (list ref) :=
  extract.load_neos parse_float nothing csv_rows.

Definition after_approaches : extract.World * extract.loaded (list ref) :=
  extract.load_approaches parse_time parse_float after_neos.1 json_rows.

End Sample.

(** * Properties *)

(** Decides a decidable proposition about closed data by evaluation. *)
Ltac by_evaluation :=
  match goal with
  | |- ?P => apply (bool_decide_eq_true_1 P); vm_compute; reflexivity
  end.

(** ** The limit helper *)

Section Limit.

Context {A : Type}.
Implicit Types (xs : list A) (k : nat).

Lemma limit_for_iter k xs : limit_for k (iter xs) = iter (take k xs).
Proof.
  revert xs; induction k as [|k IH]; intros [|x xs]; simpl; try done.
  by rewrite IH.
Qed.

Lemma limit_while_iter xs : limit_while true (iter xs) = iter xs.
Proof. induction xs as [|x xs IH]; simpl; [done | by rewrite IH]. Qed.

Lemma yielded_iter xs : yielded (iter xs) = xs.
Proof. induction xs as [|x xs IH]; simpl; [done | by rewrite IH]. Qed.

Lemma raised_iter xs : raised (iter xs) = None.
Proof. induction xs as [|x xs IH]; simpl; done. Qed.

(** C5.  Limiting a finite sequence to a positive [n] yields its first
    [min n (length xs)] elements and then stops; limiting it to [0] or to
    [None] yields the whole sequence. *)
Theorem limit_first_n_or_all xs :
  (forall n : Z, 0 < n ->
     limit (iter xs) (Some n)
     = iter (take (Z.to_nat n `min` length xs) xs))
  /\ limit (iter xs) (Some 0) = iter xs
  /\ limit (iter xs) None = iter xs.
Proof.
  split; [|split].
  - intros n Hn. unfold limit, int_truthy, range_len.
    replace (n =? 0) with false by lia. simpl.
    rewrite limit_for_iter. f_equal.
    destruct (Nat.le_ge_cases (Z.to_nat n) (length xs)) as [Hle|Hge].
    + by rewrite Nat.min_l.
    + rewrite Nat.min_r by done. by rewrite !firstn_all2 by lia.
  - apply limit_while_iter.
  - apply limit_while_iter.
Qed.

End Limit.

Lemma limit_first_n_or_all_witness :
  limit (iter [10; 20; 30; 40; 50]) (Some 3) = iter [10; 20; 30]
  /\ limit (iter [10; 20; 30; 40; 50]) (Some 0) = iter [10; 20; 30; 40; 50]
  /\ limit (iter [10; 20; 30; 40; 50]) None = iter [10; 20; 30; 40; 50].
Proof.
  destruct (limit_first_n_or_all [10; 20; 30; 40; 50])
    as (Hpos & Hzero & Hnone).
  split; [| split; assumption].
  apply (Hpos 3). lia.
Defined.

(** ** The entity model *)

Section Models.

Import NearEarthObject.

Lemma init_fields info :
  name (__init__ info) = info_name info
  /\ hazardous (__init__ info) = info_hazardous info
  /\ designation (__init__ info) = str (info_designation info)
  /\ approaches (__init__ info) = [].
Proof. by destruct info as [d n dia h]. Qed.

Lemma init_diameter_unknown info :
  info_diameter info = None -> diameter (__init__ info) = nan.
Proof. destruct info as [d n dia h]; simpl. by intros ->. Qed.

(** C8.  An object built from a record without the [hazardous] field has
    [None] for [hazardous], not the boolean [False]: [dict.get] does not
    raise, so the [except] branch that holds the default never runs. *)
Theorem init_hazardous_absent_is_None designation_ name_ diameter_ :
  let o := __init__ (Info designation_ name_ diameter_ None) in
  hazardous o = None /\ hazardous o <> Some false.
Proof. by split. Qed.

(** C9, as stated, fails: built with the empty string for a name, the
    object keeps the empty string. *)
Lemma init_keeps_empty_name :
  let o := __init__ (Info (Some "2020 AB") (Some "") None None) in
  name o = Some "" /\ name o <> None.
Proof. by split. Qed.

(** C9, amended.  The constructor stores the name it is given: [None]
    stays [None] and the empty string stays the empty string; the display
    form of either is the designation alone; and an object built with
    [name=None] and [diameter=None] has no name, a not-a-number diameter
    and the designation for its display form. *)
Theorem init_name_stored_unchanged info :
  let o := __init__ info in
  name o = info_name info
  /\ (info_name info = None \/ info_name info = Some "" ->
      fullname o = designation o)
  /\ (info_name info = None -> info_diameter info = None ->
      name o = None /\ PrimFloat.is_nan (diameter o) = true
      /\ fullname o = str (info_designation info)).
Proof.
  destruct info as [d n dia h]; simpl. split; [done|]. split.
  - by intros [-> | ->].
  - by intros -> ->.
Qed.

(** An approach built from a timestamp that [cd_to_datetime] rejects has
    [None] for its time. *)
Lemma ca_init_time_unparseable cd_to_datetime float_of_string data e :
  cd_to_datetime (CloseApproach.data_time data) = Raise e ->
  CloseApproach.time
    (CloseApproach.__init__ cd_to_datetime float_of_string data) = None.
Proof. unfold CloseApproach.__init__; simpl. by intros ->. Qed.

End Models.

Lemma init_name_stored_unchanged_witness :
  let o :=
    NearEarthObject.__init__
      (NearEarthObject.Info (Some "2020 AB") None None None) in
  NearEarthObject.name o = None
  /\ PrimFloat.is_nan (NearEarthObject.diameter o) = true
  /\ NearEarthObject.fullname o = "2020 AB".
Proof.
  pose proof (init_name_stored_unchanged
                (NearEarthObject.Info (Some "2020 AB") None None None))
    as (_ & _ & H).
  apply H; reflexivity.
Defined.

(** ** Filters *)

Section Filters.

Import AttributeFilter.

Lemma append_if_falsy v f queries :
  truthy v = false -> append_if v f queries = queries.
Proof. unfold append_if. by intros ->. Qed.

Lemma append_if_cls v f queries (c : filter_class) :
  Forall (fun g => cls g <> c) queries ->
  cls f <> c ->
  Forall (fun g => cls g <> c) (append_if v f queries).
Proof.
  intros Hq Hf. unfold append_if. destruct (truthy v); [|done].
  apply Forall_app. split; [done|]. by constructor.
Qed.

(** Whatever the other criteria are, [hazardous=False] adds no
    [HazardFilter]. *)
Lemma create_filters_False_no_HazardFilter
    date start_date end_date distance_min distance_max
    velocity_min velocity_max diameter_min diameter_max :
  Forall (fun f => cls f <> HazardFilter_)
    (create_filters date start_date end_date distance_min distance_max
       velocity_min velocity_max diameter_min diameter_max (VBool false)).
Proof.
  unfold create_filters. rewrite (append_if_falsy (VBool false)) by done.
  repeat (apply append_if_cls; [|done]). constructor.
Qed.

(** A filter on an attribute of the linked object raises on an approach
    whose [neo] is [None], whatever its operator and reference value. *)
Lemma call_null_neo st f approach :
  CloseApproach.neo approach = None ->
  cls f = DiameterFilter_ \/ cls f = HazardFilter_ ->
  exists attr,
    __call__ f st approach = Raise (AttributeError "NoneType" attr).
Proof.
  intros Hneo [Hc | Hc]; unfold __call__, get; rewrite Hc, Hneo; simpl;
    eauto.
Qed.

(** C10.  On an approach whose [time] is [None] every date filter raises
    [AttributeError] (no attribute [date] on [None]), whatever its
    operator and reference value; on an approach with a time, a date
    filter with a date for reference value returns a boolean. *)
Theorem date_filter_raises_on_null_time st approach :
  (CloseApproach.time approach = None ->
   forall op v,
     __call__ (DateFilter op v) st approach
     = Raise (AttributeError "NoneType" "date"))
  /\ (forall t, CloseApproach.time approach = Some t ->
      forall op d, exists b : bool,
        __call__ (DateFilter op (VDate d)) st approach = Ok b).
Proof.
  split.
  - intros Ht op v. unfold __call__; simpl. by rewrite Ht.
  - intros t Ht op d. unfold __call__; simpl. rewrite Ht; simpl.
    destruct op; simpl; eauto.
Qed.

End Filters.

Lemma date_filter_raises_on_null_time_witness :
  AttributeFilter.__call__
    (DateFilter operator.eq (VDate (Date 2020 1 1)))
    Sample.linked (cas Sample.linked !!! 6%nat)
  = Raise (AttributeError "NoneType" "date")
  /\ exists b : bool,
       AttributeFilter.__call__
         (DateFilter operator.le (VDate (Date 2020 1 1)))
         Sample.linked (cas Sample.linked !!! 0%nat)
       = Ok b.
Proof.
  split.
  - apply (proj1 (date_filter_raises_on_null_time Sample.linked
                    (cas Sample.linked !!! 6%nat))).
    vm_compute. reflexivity.
  - apply (proj2 (date_filter_raises_on_null_time Sample.linked
                    (cas Sample.linked !!! 0%nat))
             (DateTime (Date 2020 1 1) 12 30)).
    vm_compute. reflexivity.
Defined.

(** ** Linking *)

Section Linking.

Import NEODatabase.

Lemma link_cas approaches : forall st, cas (link st approaches).1 = cas st.
Proof.
  induction approaches as [|a rest IH]; intros st; simpl; [done|].
  destruct (CloseApproach.neo (cas st !!! a)) as [o|]; [|done].
  by rewrite IH.
Qed.

Lemma refers_to_cas st st' o a :
  cas st' = cas st -> refers_to st' o a = refers_to st o a.
Proof. unfold refers_to. by intros ->. Qed.

Lemma approaches_append_to st o a O :
  NearEarthObject.approaches (neos (append_to st o a) !!! O)
  = (NearEarthObject.approaches (neos st !!! O)
     ++ (if bool_decide (o = O) then [a] else []))%list.
Proof.
  unfold append_to; simpl. case_bool_decide as Ho.
  - subst O. by rewrite lookup_total_insert_eq.
  - rewrite lookup_total_insert_ne by done. by rewrite app_nil_r.
Qed.

(** When the loop ends normally every object has gained, in the order of
    the loop, the approaches that refer to it. *)
Lemma link_ok approaches : forall st,
  (link st approaches).2 = Ok () ->
  forall O,
    NearEarthObject.approaches (neos (link st approaches).1 !!! O)
    = (NearEarthObject.approaches (neos st !!! O)
       ++ List.filter (refers_to st O) approaches)%list.
Proof.
  induction approaches as [|a rest IH]; intros st Hok O; simpl in *.
  - by rewrite app_nil_r.
  - unfold refers_to at 1.
    destruct (CloseApproach.neo (cas st !!! a)) as [o|] eqn:Hneo;
      [|done].
    rewrite (IH _ Hok O), approaches_append_to, <- app_assoc. f_equal.
    rewrite (filter_ext (refers_to (append_to st o a) O) (refers_to st O))
      by (intros; by apply refers_to_cas).
    repeat case_bool_decide; simplify_eq; done.
Qed.

(** The loop raises as soon as it meets an approach without an object. *)
Lemma link_raises approaches : forall st a,
  a ∈ approaches ->
  CloseApproach.neo (cas st !!! a) = None ->
  (link st approaches).2 = Raise (AttributeError "NoneType" "approaches").
Proof.
  induction approaches as [|b rest IH]; intros st a Hin Hnone; simpl.
  - by apply elem_of_nil in Hin.
  - destruct (CloseApproach.neo (cas st !!! b)) as [o|] eqn:Hb; [|done].
    apply elem_of_cons in Hin as [-> | Hin]; [congruence|].
    by apply (IH _ a).
Qed.

(** C6.  In a database whose construction succeeded, from objects that
    had no approaches yet, an approach of the database refers to an
    object exactly when it is among that object's approaches, and the
    object's approaches are listed in the order in which they were
    linked, that of the database's approaches. *)
Theorem linking_is_bidirectional st neos_ approaches_ st' db :
  (forall o, NearEarthObject.approaches (neos st !!! o) = []) ->
  __init__ st neos_ approaches_ = (st', Ok db) ->
  forall O,
    NearEarthObject.approaches (neos st' !!! O)
    = List.filter (refers_to st' O) (_approaches db)
    /\ forall A,
         A ∈ NearEarthObject.approaches (neos st' !!! O)
         <-> A ∈ _approaches db
             /\ CloseApproach.neo (cas st' !!! A) = Some O.
Proof.
  intros Hempty Hinit O. unfold __init__ in Hinit.
  pose proof (link_ok approaches_ st) as Hok.
  pose proof (link_cas approaches_ st) as Hcas.
  destruct (link st approaches_) as [st1 r]; simpl in *.
  destruct r as [[]|e]; simpl in Hinit; [|done].
  injection Hinit as <- <-; simpl.
  assert (NearEarthObject.approaches (neos st1 !!! O)
          = List.filter (refers_to st1 O) approaches_) as Heq.
  { rewrite (Hok eq_refl O), Hempty; simpl.
    apply filter_ext. intros a. symmetry. by apply refers_to_cas. }
  split; [done|]. intros A. rewrite Heq, !list_elem_of_In, filter_In.
  unfold refers_to. by rewrite bool_decide_eq_true.
Qed.

End Linking.

Lemma sample_objects_unlinked o :
  NearEarthObject.approaches (neos Sample.unlinked !!! o) = [].
Proof.
  destruct (decide (o < 5)%nat) as [Hlt|Hge].
  - do 5 (destruct o as [|o]; [vm_compute; reflexivity|]). lia.
  - assert (neos Sample.unlinked !! o = None) as Hnone.
    { apply lookup_map_seq_None. right. simpl. lia. }
    by rewrite lookup_total_alt, Hnone.
Qed.

Lemma linking_is_bidirectional_witness :
  NearEarthObject.approaches (neos Sample.linked !!! 3%nat) = [3%nat]
  /\ forall A,
       A ∈ NearEarthObject.approaches (neos Sample.linked !!! 3%nat)
       <-> A ∈ [0; 1; 2; 3; 4]%nat
           /\ CloseApproach.neo (cas Sample.linked !!! A) = Some 3%nat.
Proof.
  assert (NEODatabase.__init__ Sample.unlinked [0; 1; 2; 3; 4]%nat
            [0; 1; 2; 3; 4]%nat = (Sample.linked, Ok Sample.db)) as Hinit.
  { vm_compute. reflexivity. }
  exact (linking_is_bidirectional Sample.unlinked _ _ _ _
           sample_objects_unlinked Hinit 3%nat).
Defined.

(** ** Queries *)

Section Query.

Import NEODatabase.

Variable st : Store.
Implicit Types (filters : list AttributeFilter.t) (l : list ref) (a : ref).

Lemma all_map_true filters a :
  all_map st (cas st !!! a) filters = Ok true <-> passes st filters a = true.
Proof.
  unfold passes. induction filters as [|f rest IH]; simpl; [done|].
  unfold evaluates_true.
  destruct (AttributeFilter.__call__ f st (cas st !!! a)) as [[|]|e];
    simpl; [done | split; intros; discriminate..].
Qed.

Lemma all_map_false filters a :
  all_map st (cas st !!! a) filters = Ok false -> passes st filters a = false.
Proof.
  intros H. apply not_true_is_false. rewrite <- all_map_true. congruence.
Qed.

Lemma all_map_raise filters a e :
  all_map st (cas st !!! a) filters = Raise e -> passes st filters a = false.
Proof.
  intros H. apply not_true_is_false. rewrite <- all_map_true. congruence.
Qed.

(** [all] reaches a filter when those before it are true, and a raise of
    that filter is a raise of [all]. *)
Lemma all_map_reaches fs1 f fs2 a e :
  passes st fs1 a = true ->
  AttributeFilter.__call__ f st (cas st !!! a) = Raise e ->
  all_map st (cas st !!! a) (fs1 ++ f :: fs2) = Raise e.
Proof.
  intros Hpass Hf. induction fs1 as [|g fs1 IH]; simpl.
  - by rewrite Hf.
  - unfold passes in Hpass; simpl in Hpass.
    apply andb_true_iff in Hpass as [Hg Hrest]. unfold evaluates_true in Hg.
    destruct (AttributeFilter.__call__ g st (cas st !!! a)) as [[|]|];
      simpl; try discriminate.
    by apply IH.
Qed.

Lemma query_filtered_sublist filters l :
  yielded (query_filtered st filters l) `sublist_of` l.
Proof.
  induction l as [|a l IH]; simpl; [done|].
  destruct (all_map st (cas st !!! a) filters) as [[|]|e]; simpl.
  - by apply sublist_skip.
  - by apply sublist_cons.
  - apply sublist_nil_l.
Qed.

Lemma query_filtered_complete filters l :
  raised (query_filtered st filters l) = None ->
  yielded (query_filtered st filters l) = List.filter (passes st filters) l.
Proof.
  induction l as [|a l IH]; simpl; [done|].
  destruct (all_map st (cas st !!! a) filters) as [[|]|e] eqn:Ha; simpl.
  - intros H. apply all_map_true in Ha. rewrite Ha. by rewrite IH.
  - intros H. apply all_map_false in Ha. rewrite Ha. by apply IH.
  - done.
Qed.

Lemma query_filtered_interrupted filters l e :
  raised (query_filtered st filters l) = Some e ->
  exists pre a post,
    l = (pre ++ a :: post)%list
    /\ raised (query_filtered st filters pre) = None
    /\ all_map st (cas st !!! a) filters = Raise e
    /\ yielded (query_filtered st filters l)
       = List.filter (passes st filters) pre.
Proof.
  induction l as [|a l IH]; simpl; [done|].
  destruct (all_map st (cas st !!! a) filters) as [[|]|e'] eqn:Ha; simpl.
  - intros (pre & b & post & -> & Hpre & Hb & Hy)%IH.
    exists (a :: pre), b, post. simpl. rewrite Ha; simpl.
    apply all_map_true in Ha. rewrite Ha, Hy. done.
  - intros (pre & b & post & -> & Hpre & Hb & Hy)%IH.
    exists (a :: pre), b, post. simpl. rewrite Ha; simpl.
    apply all_map_false in Ha. rewrite Ha, Hy. done.
  - intros [= ->]. by exists [], a, l.
Qed.

Lemma query_filtered_app filters pre l :
  raised (query_filtered st filters pre) = None ->
  yielded (query_filtered st filters (pre ++ l))
  = (yielded (query_filtered st filters pre)
     ++ yielded (query_filtered st filters l))%list
  /\ raised (query_filtered st filters (pre ++ l))
     = raised (query_filtered st filters l).
Proof.
  induction pre as [|a pre IH]; simpl; [done|].
  destruct (all_map st (cas st !!! a) filters) as [[|]|e]; simpl;
    [| done | done].
  intros [-> ->]%IH. done.
Qed.

Lemma query_as_filtered self filters :
  yielded (query self st filters)
  = yielded (query_filtered st filters (_approaches self))
  /\ raised (query self st filters)
     = raised (query_filtered st filters (_approaches self)).
Proof.
  destruct filters as [|f rest]; [|done]. simpl.
  rewrite yielded_iter, raised_iter.
  induction (_approaches self) as [|a l [IHy IHr]]; simpl; [done|].
  by rewrite <- IHy.
Qed.

End Query.

Section QueryLaws.

Import NEODatabase.

(** The lookup by name returns an object as soon as one of the database has
    the name asked for, an absent name included. *)
Lemma get_neo_by_name_finds self st name o :
  o ∈ _neos self ->
  NearEarthObject.name (neos st !!! o) = name ->
  exists o', get_neo_by_name self st name = Some o'.
Proof.
  unfold get_neo_by_name. intros Hin Hname.
  induction (_neos self) as [|n l IH]; simpl.
  - by apply elem_of_nil in Hin.
  - case_bool_decide as Hn; [by eauto|].
    apply elem_of_cons in Hin as [-> | Hin]; [done | by apply IH].
Qed.

(** C4, as stated, fails: a filter that raises on one approach ends the
    query, and the approaches stored after it are not yielded even when
    every filter evaluates true on them.  Here the database is the one
    built over the approach without a time followed by an approach of
    2020-01-01, and the filter selects that date. *)
Lemma query_stops_at_failing_evaluation :
  let filters := [DateFilter operator.eq (VDate (Date 2020 1 1))] in
  let self := Build [0; 1; 2; 3; 4]%nat [6; 0]%nat in
  let st := Sample.undated.1 in
  Sample.undated.2 = Ok self
  /\ passes st filters 0%nat = true
  /\ yielded (query self st filters) = []
  /\ raised (query self st filters)
     = Some (AttributeError "NoneType" "date")
  /\ yielded (query self st filters)
     <> List.filter (passes st filters) (_approaches self).
Proof. vm_compute. repeat split; try reflexivity. discriminate. Qed.

Lemma query_filtered_evaluated st filters l :
  Forall (evaluates st filters) l ->
  raised (query_filtered st filters l) = None.
Proof.
  induction 1 as [|a l [b Ha] _ IH]; simpl; [done|].
  rewrite Ha. by destruct b.
Qed.

(** C4, amended.  [query] yields, in storage order and without
    duplicates or omissions, the approaches on which every filter
    evaluates true, up to the first approach at which an evaluation
    raises.  When the filters are evaluated on every stored approach
    without a raise, it yields all the matching approaches and ends
    normally.  When the evaluation raises on an approach, those before it
    having been evaluated without a raise, it yields the matching
    approaches stored before that one and ends with that exception; and
    it ends with an exception in no other way.  With no filter it yields
    every stored approach, and what it yields is always a subsequence of
    what it yields with no filter. *)
Theorem query_yields_matching_approaches self st filters :
  query self st [] = iter (_approaches self)
  /\ yielded (query self st filters) `sublist_of` yielded (query self st [])
  /\ (Forall (evaluates st filters) (_approaches self) ->
      raised (query self st filters) = None
      /\ yielded (query self st filters)
         = List.filter (passes st filters) (_approaches self))
  /\ (forall pre a post e,
        _approaches self = (pre ++ a :: post)%list ->
        Forall (evaluates st filters) pre ->
        all_map st (cas st !!! a) filters = Raise e ->
        raised (query self st filters) = Some e
        /\ yielded (query self st filters)
           = List.filter (passes st filters) pre)
  /\ (forall e, raised (query self st filters) = Some e ->
      exists pre a post,
        _approaches self = (pre ++ a :: post)%list
        /\ Forall (evaluates st filters) pre
        /\ all_map st (cas st !!! a) filters = Raise e).
Proof.
  destruct (query_as_filtered st self filters) as [-> ->].
  split; [done|]. split; [|split; [|split]].
  - simpl. rewrite yielded_iter. apply query_filtered_sublist.
  - intros Hall. pose proof (query_filtered_evaluated _ _ _ Hall) as Hr.
    split; [done | by apply query_filtered_complete].
  - intros pre a post e -> Hpre Ha.
    pose proof (query_filtered_evaluated _ _ _ Hpre) as Hr.
    destruct (query_filtered_app st filters pre (a :: post) Hr) as [-> ->].
    simpl. rewrite Ha. simpl. split; [done|]. rewrite app_nil_r.
    by apply query_filtered_complete.
  - intros e Hraised. remember (_approaches self) as l eqn:Hl. clear Hl.
    induction l as [|a l IH]; simpl in Hraised; [done|].
    destruct (all_map st (cas st !!! a) filters) as [b|e'] eqn:Ha.
    + assert (raised (query_filtered st filters l) = Some e) as Hl
        by (by destruct b).
      destruct (IH Hl) as (pre & a' & post & -> & Hpre & Ha').
      exists (a :: pre), a', post. split; [done|]. split; [|done].
      constructor; [by exists b | done].
    + injection Hraised as ->. exists [], a, l.
      split; [done|]. split; [constructor | done].
Qed.

(** C7.  On an approach whose [neo] is [None] a diameter or hazard filter
    raises [AttributeError] naming the attribute it could not read,
    whatever its operator and reference value; and a query that reaches
    this evaluation (the approaches stored before were evaluated without
    a raise, the filters listed before evaluate true on the approach)
    ends with that exception, having yielded the matching approaches
    stored before and neither the approach nor anything after it. *)
Theorem null_neo_failure_propagates self st pre a post fs1 f fs2 :
  CloseApproach.neo (cas st !!! a) = None ->
  AttributeFilter.cls f = DiameterFilter_
  \/ AttributeFilter.cls f = HazardFilter_ ->
  exists attr,
    AttributeFilter.__call__ f st (cas st !!! a)
    = Raise (AttributeError "NoneType" attr)
    /\ (_approaches self = (pre ++ a :: post)%list ->
        raised (query (Build (_neos self) pre) st (fs1 ++ f :: fs2)) = None ->
        passes st fs1 a = true ->
        raised (query self st (fs1 ++ f :: fs2))
        = Some (AttributeError "NoneType" attr)
        /\ yielded (query self st (fs1 ++ f :: fs2))
           = List.filter (passes st (fs1 ++ f :: fs2)) pre).
Proof.
  intros Hneo Hcls.
  destruct (call_null_neo st f _ Hneo Hcls) as [attr Hcall].
  exists attr. split; [done|]. intros Hl Hpre Hpass.
  destruct (query_as_filtered st self (fs1 ++ f :: fs2)) as [-> ->].
  destruct (query_as_filtered st (Build (_neos self) pre) (fs1 ++ f :: fs2))
    as [_ Hr].
  rewrite Hr in Hpre; simpl in Hpre.
  destruct (query_filtered_app st (fs1 ++ f :: fs2) pre (a :: post) Hpre)
    as [Hy Hraise].
  rewrite Hl, Hy, Hraise; simpl.
  rewrite (all_map_reaches st fs1 f fs2 a _ Hpass Hcall); simpl.
  split; [done|]. rewrite app_nil_r. by apply query_filtered_complete.
Qed.

(** C1: [create_filters(hazardous=False)] returns no filter at all, and
    the query over the five sample objects, two of them hazardous, yields
    the approaches of all five, not those of the three that are not
    hazardous. *)
Theorem create_filters_ignores_hazardous_False :
  let filters :=
    create_filters VNone VNone VNone VNone VNone VNone VNone VNone VNone
      (VBool false) in
  filters = []
  /\ yielded (query Sample.db Sample.linked filters) = [0; 1; 2; 3; 4]%nat
  /\ List.filter (not_hazardous Sample.linked) (_approaches Sample.db)
     = [0; 2; 4]%nat.
Proof. vm_compute. repeat split; reflexivity. Qed.

(** C2: construction raises [AttributeError] at the approach whose
    designation matches no object, and the approach stored after it is
    never linked. *)
Theorem init_raises_on_unmatched_approach :
  let r := __init__ Sample.unlinked [0; 1; 2; 3; 4]%nat [0; 1; 5; 2]%nat in
  CloseApproach.neo (cas Sample.unlinked !!! 5%nat) = None
  /\ get_neo_by_designation Sample.db Sample.unlinked "NOPE" = None
  /\ r.2 = Raise (AttributeError "NoneType" "approaches")
  /\ NearEarthObject.approaches (neos r.1 !!! 2%nat) = [].
Proof. vm_compute. repeat split; reflexivity. Qed.

(** C3: [get_neo_by_name(None)] returns the first object without a name,
    and [get_neo_by_name("")] returns an object whose name is the empty
    string. *)
Theorem get_neo_by_name_matches_absent_name :
  get_neo_by_name Sample.db Sample.linked None = Some 2%nat
  /\ NearEarthObject.name (neos Sample.linked !!! 2%nat) = None
  /\ get_neo_by_name (Build [0%nat] []) Sample.nameless (Some "")
     = Some 0%nat.
Proof. vm_compute. repeat split; reflexivity. Qed.

End QueryLaws.

Lemma query_yields_matching_approaches_witness :
  let matching :=
    [DistanceFilter operator.le (VFloat 0.25);
     HazardFilter operator.eq (VBool true)] in
  let dated := [DateFilter operator.eq (VDate (Date 2020 1 1))] in
  let undated := NEODatabase.Build [0; 1; 2; 3; 4]%nat [0; 6; 1]%nat in
  (raised (NEODatabase.query Sample.db Sample.linked matching) = None
   /\ yielded (NEODatabase.query Sample.db Sample.linked matching)
      = [1; 3]%nat)
  /\ (raised (NEODatabase.query undated Sample.linked dated)
      = Some (AttributeError "NoneType" "date")
      /\ yielded (NEODatabase.query undated Sample.linked dated) = [0%nat]).
Proof.
  intros matching dated undated. split.
  - pose proof (query_yields_matching_approaches Sample.db Sample.linked
                  matching) as (_ & _ & H & _).
    apply H.
    repeat (constructor; [eexists; vm_compute; reflexivity|]). constructor.
  - pose proof (query_yields_matching_approaches undated Sample.linked
                  dated) as (_ & _ & _ & H & _).
    apply (H [0%nat] 6%nat [1%nat]).
    + reflexivity.
    + repeat (constructor; [eexists; vm_compute; reflexivity|]). constructor.
    + vm_compute. reflexivity.
Defined.

Lemma null_neo_failure_propagates_witness :
  let self := NEODatabase.Build [0; 1; 2; 3; 4]%nat [1; 0; 5; 3]%nat in
  let filters :=
    [DistanceFilter operator.le (VFloat 0.25);
     HazardFilter operator.eq (VBool true)] in
  exists attr,
    AttributeFilter.__call__ (HazardFilter operator.eq (VBool true))
      Sample.linked (cas Sample.linked !!! 5%nat)
    = Raise (AttributeError "NoneType" attr)
    /\ raised (NEODatabase.query self Sample.linked filters)
       = Some (AttributeError "NoneType" attr)
    /\ yielded (NEODatabase.query self Sample.linked filters) = [1%nat].
Proof.
  intros self filters.
  destruct (null_neo_failure_propagates self Sample.linked [1; 0]%nat 5%nat
              [3%nat] [DistanceFilter operator.le (VFloat 0.25)]
              (HazardFilter operator.eq (VBool true)) [])
    as (attr & Hcall & Hquery).
  - vm_compute. reflexivity.
  - right. reflexivity.
  - exists attr. split; [exact Hcall|].
    apply Hquery; vm_compute; reflexivity.
Defined.

(** ** Lookups *)

Section Lookups.

Import NEODatabase.

Variable st : Store.

(** [find_neo] returns the first reference of the list whose object
    satisfies the test, and [None] when no object of the list does. *)
Lemma find_neo_first p l :
  match find_neo st p l with
  | Some o =>
      exists pre post,
        l = (pre ++ o :: post)%list
        /\ p (neos st !!! o) = true
        /\ forall o', o' ∈ pre -> p (neos st !!! o') = false
  | None => forall o, o ∈ l -> p (neos st !!! o) = false
  end.
Proof.
  induction l as [|n l IH]; simpl.
  - intros o Ho. by apply elem_of_nil in Ho.
  - destruct (p (neos st !!! n)) eqn:Hn.
    + exists [], l. repeat split; [done|]. intros o' Ho'.
      by apply elem_of_nil in Ho'.
    + destruct (find_neo st p l) as [o|].
      * destruct IH as (pre & post & -> & Ho & Hpre).
        exists (n :: pre), post. repeat split; [done|].
        intros o' [-> | Ho']%elem_of_cons; [done | by apply Hpre].
      * intros o [-> | Ho]%elem_of_cons; [done | by apply IH].
Qed.

(** X1.  The lookup by designation returns the first object of the
    collection whose designation is exactly the one asked for, and [None]
    exactly when no object of the collection has it. *)
Theorem get_neo_by_designation_first_exact_match self d :
  match get_neo_by_designation self st d with
  | Some o =>
      exists pre post,
        _neos self = (pre ++ o :: post)%list
        /\ NearEarthObject.designation (neos st !!! o) = d
        /\ forall o', o' ∈ pre ->
             NearEarthObject.designation (neos st !!! o') <> d
  | None =>
      forall o, o ∈ _neos self ->
        NearEarthObject.designation (neos st !!! o) <> d
  end.
Proof.
  unfold get_neo_by_designation.
  pose proof (find_neo_first
    (fun neo => String.eqb (NearEarthObject.designation neo) d)
    (_neos self)) as H.
  destruct (find_neo _ _ _) as [o|].
  - destruct H as (pre & post & Hl & Ho & Hpre).
    exists pre, post. split; [done|]. split.
    + by apply String.eqb_eq.
    + intros o' Ho'. apply String.eqb_neq. by apply Hpre.
  - intros o Ho. apply String.eqb_neq. by apply H.
Qed.

(** X2.  The lookup by name returns the first object of the collection
    whose name equals the one asked for, and [None] exactly when no object
    of the collection has that name. *)
Theorem get_neo_by_name_first_exact_match self n :
  match get_neo_by_name self st n with
  | Some o =>
      exists pre post,
        _neos self = (pre ++ o :: post)%list
        /\ NearEarthObject.name (neos st !!! o) = n
        /\ forall o', o' ∈ pre -> NearEarthObject.name (neos st !!! o') <> n
  | None =>
      forall o, o ∈ _neos self -> NearEarthObject.name (neos st !!! o) <> n
  end.
Proof.
  unfold get_neo_by_name.
  pose proof (find_neo_first
    (fun neo => bool_decide (NearEarthObject.name neo = n))
    (_neos self)) as H.
  destruct (find_neo _ _ _) as [o|].
  - destruct H as (pre & post & Hl & Ho & Hpre).
    exists pre, post. split; [done|]. split.
    + by apply bool_decide_eq_true in Ho.
    + intros o' Ho'. specialize (Hpre o' Ho').
      by apply bool_decide_eq_false in Hpre.
  - intros o Ho. specialize (H o Ho). by apply bool_decide_eq_false in H.
Qed.

Lemma find_unique_designation self o :
  NoDup ((fun r => NearEarthObject.designation (neos st !!! r))
           <$> _neos self) ->
  o ∈ _neos self ->
  get_neo_by_designation self st
    (NearEarthObject.designation (neos st !!! o)) = Some o.
Proof.
  intros Hnodup Ho. unfold get_neo_by_designation.
  set (d := NearEarthObject.designation (neos st !!! o)) in *.
  pose proof (find_neo_first
    (fun neo => String.eqb (NearEarthObject.designation neo) d)
    (_neos self)) as H.
  destruct (find_neo _ _ _) as [o1|].
  - destruct H as (pre & post & Hl & Heq%String.eqb_eq & _). f_equal.
    rewrite Hl in Hnodup, Ho. rewrite fmap_app, fmap_cons in Hnodup.
    apply NoDup_app in Hnodup as (_ & Hdisj & [Hnotin _]%NoDup_cons).
    apply elem_of_app in Ho as [Ho | [-> | Ho]%elem_of_cons]; [| done |].
    + exfalso. apply (Hdisj d).
      * apply list_elem_of_fmap. by exists o.
      * rewrite <- Heq. apply elem_of_cons. by left.
    + exfalso. apply Hnotin. rewrite Heq. apply list_elem_of_fmap.
      by exists o.
  - specialize (H o Ho). simpl in H. apply String.eqb_neq in H. done.
Qed.

(** X3.  When the designations of the collection are pairwise distinct, the
    lookup by designation returns every object of the collection for its
    own designation. *)
Theorem get_neo_by_designation_unique self o :
  NoDup ((fun r => NearEarthObject.designation (neos st !!! r))
           <$> _neos self) ->
  o ∈ _neos self ->
  get_neo_by_designation self st
    (NearEarthObject.designation (neos st !!! o)) = Some o.
Proof. apply find_unique_designation. Qed.

End Lookups.

(** ** What construction changes, and when it succeeds *)

Section Construction.

Import NEODatabase.

Lemma init_store st ns l : (__init__ st ns l).1 = (link st l).1.
Proof. unfold __init__. by destruct (link st l). Qed.

Lemma init_result st ns l :
  (__init__ st ns l).2 = (_ ← (link st l).2; Ok (Build ns l)).
Proof. unfold __init__. by destruct (link st l). Qed.

(** Linking touches nothing but the [approaches] lists. *)
Lemma link_attributes l : forall st o,
  let before := neos st !!! o in
  let after := neos (link st l).1 !!! o in
  NearEarthObject.designation after = NearEarthObject.designation before
  /\ NearEarthObject.name after = NearEarthObject.name before
  /\ NearEarthObject.diameter after = NearEarthObject.diameter before
  /\ NearEarthObject.hazardous after = NearEarthObject.hazardous before.
Proof.
  induction l as [|a rest IH]; intros st o; simpl; [done|].
  destruct (CloseApproach.neo (cas st !!! a)) as [o'|]; [|done].
  destruct (IH (append_to st o' a) o) as (-> & -> & -> & ->).
  unfold append_to; simpl. destruct (decide (o' = o)) as [->|Hne].
  - by rewrite lookup_total_insert_eq.
  - by rewrite lookup_total_insert_ne.
Qed.

Lemma find_neo_ext st st' p l :
  (forall o, p (neos st' !!! o) = p (neos st !!! o)) ->
  find_neo st' p l = find_neo st p l.
Proof.
  intros H. induction l as [|n l IH]; simpl; [done|]. by rewrite H, IH.
Qed.

Lemma link_app pre l : forall st,
  link st (pre ++ l)
  = match (link st pre).2 with
    | Ok _ => link (link st pre).1 l
    | Raise _ => link st pre
    end.
Proof.
  induction pre as [|a pre IH]; intros st; simpl; [done|].
  destruct (CloseApproach.neo (cas st !!! a)) as [o|]; [|done].
  apply IH.
Qed.

Lemma link_succeeds l : forall st,
  Forall (fun a => CloseApproach.neo (cas st !!! a) <> None) l ->
  (link st l).2 = Ok ().
Proof.
  induction l as [|a rest IH]; intros st Hall; simpl; [done|].
  apply Forall_cons in Hall as [Ha Hrest].
  destruct (CloseApproach.neo (cas st !!! a)) as [o|]; [|done].
  by apply IH.
Qed.

(** X4.  Construction changes neither the approaches nor the designation,
    name, diameter and hazard flag of any object, whether it succeeds or
    raises; so both lookups answer after construction what they answered
    before. *)
Theorem construction_only_appends st ns l :
  let st' := (__init__ st ns l).1 in
  cas st' = cas st
  /\ (forall o,
        NearEarthObject.designation (neos st' !!! o)
        = NearEarthObject.designation (neos st !!! o)
        /\ NearEarthObject.name (neos st' !!! o)
           = NearEarthObject.name (neos st !!! o)
        /\ NearEarthObject.diameter (neos st' !!! o)
           = NearEarthObject.diameter (neos st !!! o)
        /\ NearEarthObject.hazardous (neos st' !!! o)
           = NearEarthObject.hazardous (neos st !!! o))
  /\ (forall self d,
        get_neo_by_designation self st' d = get_neo_by_designation self st d)
  /\ (forall self n, get_neo_by_name self st' n = get_neo_by_name self st n).
Proof.
  simpl. rewrite init_store. split; [apply link_cas|].
  split; [intros o; apply link_attributes|].
  split; intros self x; apply find_neo_ext; intros o;
    destruct (link_attributes l st o) as (Hd & Hn & _); simpl in *;
    by rewrite ?Hd, ?Hn.
Qed.

(** X5.  Construction returns the database over the two collections exactly
    when every approach has an object; otherwise it raises the
    [AttributeError] of reading [approaches] on [None]. *)
Theorem construction_succeeds_iff_all_resolved st ns l :
  match (__init__ st ns l).2 with
  | Ok db =>
      db = Build ns l
      /\ Forall (fun a => CloseApproach.neo (cas st !!! a) <> None) l
  | Raise e =>
      e = AttributeError "NoneType" "approaches"
      /\ Exists (fun a => CloseApproach.neo (cas st !!! a) = None) l
  end.
Proof.
  rewrite init_result.
  destruct (decide (Forall
    (fun a => CloseApproach.neo (cas st !!! a) <> None) l)) as [Hall|Hex].
  - by rewrite (link_succeeds l st Hall).
  - apply not_Forall_Exists in Hex; [|apply _].
    assert (Exists (fun a => CloseApproach.neo (cas st !!! a) = None) l)
      as Hex'.
    { eapply Exists_impl; [exact Hex|]. simpl. intros a Ha.
      destruct (CloseApproach.neo (cas st !!! a)); [|done].
      by destruct Ha. }
    apply Exists_exists in Hex' as Hw. destruct Hw as (a & Hin & Hnone).
    by rewrite (link_raises l st a Hin Hnone).
Qed.

(** X6.  A construction that raises has already linked the approaches
    stored before the one without an object: they stay appended to their
    objects, and the approaches after it are not linked. *)
Theorem failed_construction_leaves_partial_links st ns pre a post :
  Forall (fun b => CloseApproach.neo (cas st !!! b) <> None) pre ->
  CloseApproach.neo (cas st !!! a) = None ->
  let r := __init__ st ns (pre ++ a :: post) in
  r.2 = Raise (AttributeError "NoneType" "approaches")
  /\ forall O,
       NearEarthObject.approaches (neos r.1 !!! O)
       = (NearEarthObject.approaches (neos st !!! O)
          ++ List.filter (refers_to st O) pre)%list.
Proof.
  intros Hpre Ha. simpl. rewrite init_store, init_result, link_app.
  pose proof (link_succeeds pre st Hpre) as Hok. rewrite Hok.
  pose proof (link_cas pre st) as Hcas. simpl.
  rewrite Hcas, Ha. simpl. split; [done|]. intros O. by apply link_ok.
Qed.

End Construction.

(** ** Limiting an arbitrary generator *)

Section LimitGen.

Context {A : Type}.
Implicit Types (g : gen A) (k : nat).

Lemma limit_for_yielded k : forall g,
  yielded (limit_for k g) = take k (yielded g).
Proof.
  induction k as [|k IH]; intros [|e|a g]; simpl; try done.
  by rewrite IH.
Qed.

Lemma limit_for_enough k : forall g,
  (k <= length (yielded g))%nat -> raised (limit_for k g) = None.
Proof.
  induction k as [|k IH]; intros [|e|a g]; simpl; try done; try lia.
  intros H. apply IH. lia.
Qed.

Lemma limit_for_short k : forall g,
  (length (yielded g) < k)%nat -> raised (limit_for k g) = raised g.
Proof.
  induction k as [|k IH]; intros [|e|a g]; simpl; try done; try lia.
  intros H. apply IH. lia.
Qed.

Lemma limit_for_enough_iter k : forall g,
  (k <= length (yielded g))%nat ->
  limit_for k g = iter (take k (yielded g)).
Proof.
  induction k as [|k IH]; intros [|e|a g]; simpl; try done; try lia.
  intros H. f_equal. apply IH. lia.
Qed.

Lemma limit_while_id g : limit_while true g = g.
Proof. induction g as [| |a g IH]; simpl; [done..|by rewrite IH]. Qed.

(** X7.  With a positive [n], [limit] yields the first [n] values of any
    generator. It stops without asking for more: when the generator has
    yielded [n] values the limited stream ends normally, even if the
    generator would raise later; when the generator ends before, the
    limited stream ends as the generator does. *)
Theorem limit_stops_after_n g (n : Z) :
  0 < n ->
  yielded (limit g (Some n)) = take (Z.to_nat n) (yielded g)
  /\ ((Z.to_nat n <= length (yielded g))%nat ->
      raised (limit g (Some n)) = None)
  /\ ((length (yielded g) < Z.to_nat n)%nat ->
      raised (limit g (Some n)) = raised g).
Proof.
  intros Hn. unfold limit, int_truthy, range_len.
  replace (n =? 0) with false by lia. simpl.
  split; [apply limit_for_yielded|].
  split; [apply limit_for_enough | apply limit_for_short].
Qed.

(** X8.  With [n] zero or [None], [limit] is the generator itself, the
    exception it may end with included. *)
Theorem limit_unlimited_is_identity g :
  limit g None = g /\ limit g (Some 0) = g.
Proof. split; apply limit_while_id. Qed.

(** X9.  With a negative [n], [limit] yields nothing and never asks the
    generator for a value. *)
Theorem limit_negative_yields_nothing g (n : Z) :
  n < 0 -> limit g (Some n) = Stop.
Proof.
  intros Hn. unfold limit, int_truthy, range_len.
  replace (n =? 0) with false by lia.
  replace (Z.to_nat n) with O by lia. done.
Qed.

End LimitGen.

Section LimitQuery.

Import NEODatabase.

(** X10.  A limited query reads only as far as it needs: when the
    approaches stored first are evaluated without a raise and hold [n]
    matches, the limited query yields the first [n] of them and ends
    normally, whatever is stored after them. *)
Theorem limited_query_reads_a_prefix self st filters pre post (n : Z) :
  0 < n ->
  _approaches self = (pre ++ post)%list ->
  raised (query (Build (_neos self) pre) st filters) = None ->
  (Z.to_nat n <= length (List.filter (passes st filters) pre))%nat ->
  limit (query self st filters) (Some n)
  = iter (take (Z.to_nat n) (List.filter (passes st filters) pre)).
Proof.
  intros Hn Hl Hpre Hlen.
  unfold limit, int_truthy, range_len.
  replace (n =? 0) with false by lia. simpl.
  destruct (query_as_filtered st (Build (_neos self) pre) filters)
    as [_ Hr].
  rewrite Hr in Hpre; simpl in Hpre.
  rewrite <- (query_filtered_complete st filters pre Hpre) in *.
  assert (yielded (query self st filters)
          = (yielded (query_filtered st filters pre)
             ++ yielded (query_filtered st filters post))%list) as Hy.
  { destruct (query_as_filtered st self filters) as [-> _]. rewrite Hl.
    by destruct (query_filtered_app st filters pre post Hpre) as [-> _]. }
  rewrite limit_for_enough_iter; rewrite Hy.
  - by rewrite take_app_le.
  - rewrite length_app. lia.
Qed.

End LimitQuery.

(** ** What the filters of [create_filters] select *)

Section Selection.

Import NEODatabase AttributeFilter.

Lemma specified_truthy v : truthy (specified v) = truthy v.
Proof. unfold specified. by destruct (truthy v) eqn:E. Qed.

Lemma append_if_specified v (F : pyval -> AttributeFilter.t) queries :
  append_if v (F v) queries = append_if (specified v) (F (specified v)) queries.
Proof.
  unfold append_if. rewrite specified_truthy. unfold specified.
  by destruct (truthy v).
Qed.

(** X11.  A falsy criterion ([None], [False], a zero bound) is as good as
    not given: [create_filters] returns the filters it returns when each
    falsy criterion is replaced by [None]. *)
Theorem create_filters_falsy_is_unspecified
    date start_date end_date distance_min distance_max
    velocity_min velocity_max diameter_min diameter_max hazardous :
  create_filters date start_date end_date distance_min distance_max
    velocity_min velocity_max diameter_min diameter_max hazardous
  = create_filters (specified date) (specified start_date)
      (specified end_date) (specified distance_min)
      (specified distance_max) (specified velocity_min)
      (specified velocity_max) (specified diameter_min)
      (specified diameter_max) (specified hazardous).
Proof.
  unfold create_filters.
  rewrite (append_if_specified date (DateFilter operator.eq)).
  rewrite (append_if_specified start_date (DateFilter operator.ge)).
  rewrite (append_if_specified end_date (DateFilter operator.le)).
  rewrite (append_if_specified distance_min (DistanceFilter operator.ge)).
  rewrite (append_if_specified distance_max (DistanceFilter operator.le)).
  rewrite (append_if_specified velocity_min (VelocityFilter operator.ge)).
  rewrite (append_if_specified velocity_max (VelocityFilter operator.le)).
  rewrite (append_if_specified diameter_min (DiameterFilter operator.ge)).
  rewrite (append_if_specified diameter_max (DiameterFilter operator.le)).
  rewrite (append_if_specified hazardous (HazardFilter operator.eq)).
  done.
Qed.

Variable st : Store.

Lemma all_map_snoc approach q f bq bf :
  all_map st approach q = Ok bq ->
  (bq = true -> __call__ f st approach = Ok bf) ->
  all_map st approach (q ++ [f]) = Ok (bq && bf).
Proof.
  revert bq. induction q as [|g q IH]; intros bq; simpl.
  - intros [= <-] Hf. rewrite Hf by done. by destruct bf.
  - destruct (__call__ g st approach) as [[|]|e]; simpl; [| |done].
    + apply IH.
    + by intros [= <-] _.
Qed.

Lemma all_map_append_if approach q v f bq bf :
  all_map st approach q = Ok bq ->
  (truthy v = true -> __call__ f st approach = Ok bf) ->
  all_map st approach (append_if v f q)
  = Ok (bq && (if truthy v then bf else true)).
Proof.
  intros Hq Hf. unfold append_if. destruct (truthy v).
  - apply all_map_snoc; [done | by intros _; apply Hf].
  - by rewrite andb_true_r.
Qed.

Lemma add_date approach q bq (F : pyval -> AttributeFilter.t) d test :
  all_map st approach q = Ok bq ->
  (forall x, __call__ (F (VDate x)) st approach = Ok (test x)) ->
  all_map st approach (append_if (of_date d) (F (of_date d)) q)
  = Ok (bq && bound d test).
Proof.
  intros Hq HF. destruct d as [x|]; simpl.
  - rewrite (all_map_append_if approach q _ _ bq (test x) Hq); [done|].
    intros _. apply HF.
  - unfold append_if; simpl. by rewrite andb_true_r.
Qed.

Lemma add_float approach q bq (F : pyval -> AttributeFilter.t) x test :
  all_map st approach q = Ok bq ->
  (forall y, __call__ (F (VFloat y)) st approach = Ok (test y)) ->
  all_map st approach (append_if (of_float x) (F (of_float x)) q)
  = Ok (bq && bound (nonzero x) test).
Proof.
  intros Hq HF. destruct x as [y|]; simpl.
  - rewrite (all_map_append_if approach q _ _ bq (test y) Hq);
      [|intros _; apply HF].
    simpl. by destruct (PrimFloat.eqb y 0).
  - unfold append_if; simpl. by rewrite andb_true_r.
Qed.

Lemma add_bool approach q bq (F : pyval -> AttributeFilter.t) b test :
  all_map st approach q = Ok bq ->
  __call__ (F (VBool true)) st approach = Ok (test true) ->
  all_map st approach (append_if (of_bool b) (F (of_bool b)) q)
  = Ok (bq && bound (only_true b) test).
Proof.
  intros Hq HF. destruct b as [[|]|]; simpl.
  - by rewrite (all_map_append_if approach q _ _ bq (test true) Hq).
  - unfold append_if; simpl. by rewrite andb_true_r.
  - unfold append_if; simpl. by rewrite andb_true_r.
Qed.

(** On an approach that has a time and an object, the filters built from
    typed criteria all return, and their conjunction is [meets]. *)
Lemma all_map_filters_of c approach t o :
  CloseApproach.time approach = Some t ->
  CloseApproach.neo approach = Some o ->
  all_map st approach (filters_of c) = Ok (meets c approach t (neos st !!! o)).
Proof.
  intros Ht Ho. unfold filters_of, create_filters, meets.
  apply (add_bool approach _ _ (HazardFilter operator.eq)
           (crit_hazardous c)
           (fun _ => bool_decide
              (NearEarthObject.hazardous (neos st !!! o) = Some true))).
  2:{ unfold __call__, get; simpl. rewrite Ho; simpl. f_equal.
      by destruct (NearEarthObject.hazardous (neos st !!! o)) as [[|]|]. }
  apply (add_float approach _ _ (DiameterFilter operator.le));
    [|intros y; unfold __call__, get; simpl; by rewrite Ho].
  apply (add_float approach _ _ (DiameterFilter operator.ge));
    [|intros y; unfold __call__, get; simpl; by rewrite Ho].
  apply (add_float approach _ _ (VelocityFilter operator.le)); [|done].
  apply (add_float approach _ _ (VelocityFilter operator.ge)); [|done].
  apply (add_float approach _ _ (DistanceFilter operator.le)); [|done].
  apply (add_float approach _ _ (DistanceFilter operator.ge)); [|done].
  apply (add_date approach _ _ (DateFilter operator.le));
    [|intros x; unfold __call__, get; simpl; by rewrite Ht].
  apply (add_date approach _ _ (DateFilter operator.ge));
    [|intros x; unfold __call__, get; simpl; by rewrite Ht].
  apply (add_date approach [] true (DateFilter operator.eq));
    [done|intros x; unfold __call__, get; simpl; by rewrite Ht].
Qed.

(** X12.  Over approaches that all have a time and an object, the query
    with the filters built from typed criteria never raises and yields, in
    storage order, exactly the approaches that meet every criterion taken
    into account: the date, the two date bounds, the non-zero distance,
    velocity and diameter bounds, and the hazard flag when it is [True]. *)
Theorem query_selects_by_criteria self c :
  Forall (fun a =>
            is_Some (CloseApproach.time (cas st !!! a))
            /\ is_Some (CloseApproach.neo (cas st !!! a)))
         (_approaches self) ->
  raised (query self st (filters_of c)) = None
  /\ yielded (query self st (filters_of c))
     = List.filter (selected c st) (_approaches self).
Proof.
  intros Hall.
  destruct (query_as_filtered st self (filters_of c)) as [-> ->].
  induction Hall as [|a l [[t Ht] [o Ho]] Hl [IHr IHy]]; simpl; [done|].
  rewrite (all_map_filters_of c _ t o Ht Ho).
  unfold selected at 1. rewrite Ht, Ho.
  destruct (meets c (cas st !!! a) t (neos st !!! o)); simpl;
    by rewrite ?IHy.
Qed.

End Selection.

(** ** Filters that always or never fail *)

Section FilterFailures.

Import NEODatabase AttributeFilter.

Variable st : Store.

(** X13.  A filter of the base class [AttributeFilter] raises
    [UnsupportedCriterionError] on every approach, and a query whose first
    filter is one raises it at the first stored approach, before yielding
    anything. *)
Theorem base_filter_is_unsupported op v :
  (forall approach,
     __call__ (Build AttributeFilter_ op v) st approach
     = Raise UnsupportedCriterionError)
  /\ (forall self filters,
        _approaches self <> [] ->
        query self st (Build AttributeFilter_ op v :: filters)
        = Throw UnsupportedCriterionError).
Proof.
  split; [done|]. intros self filters Hne. unfold query.
  by destruct (_approaches self) as [|a l].
Qed.

Lemma numeric_bound_returns f approach :
  numeric_bound f -> exists b : bool, __call__ f st approach = Ok b.
Proof.
  intros [Hcls [y Hy]]. unfold __call__.
  assert (exists x, get (cls f) st approach = Ok (VFloat x)) as [x ->].
  { destruct Hcls as [-> | ->]; simpl; eauto. }
  simpl. destruct (op f); simpl; [by eauto | |].
  - destruct (value f); simpl in *; try done; eauto.
  - destruct (value f); simpl in *; try done; eauto.
Qed.

Lemma all_map_numeric filters approach :
  Forall numeric_bound filters ->
  exists b : bool, all_map st approach filters = Ok b.
Proof.
  induction 1 as [|f l Hf Hl [b IH]]; simpl; [by eauto|].
  destruct (numeric_bound_returns f approach Hf) as [[|] ->]; simpl; eauto.
Qed.

(** X14.  A query whose filters are all distance or velocity filters with a
    number for reference value never raises, whatever the approaches are:
    it needs neither their time nor their object. *)
Theorem distance_velocity_query_never_raises self filters :
  Forall numeric_bound filters ->
  raised (query self st filters) = None
  /\ yielded (query self st filters)
     = List.filter (passes st filters) (_approaches self).
Proof.
  intros Hall.
  assert (raised (query self st filters) = None) as Hr.
  { destruct (query_as_filtered st self filters) as [_ ->].
    induction (_approaches self) as [|a l IH]; simpl; [done|].
    by destruct (all_map_numeric filters (cas st !!! a) Hall)
      as [[|] ->]. }
  split; [done|].
  destruct (query_as_filtered st self filters) as [Hy Hr'].
  rewrite Hy. apply query_filtered_complete. by rewrite <- Hr'.
Qed.

Lemma Prim2SF_is_nan x : PrimFloat.is_nan x = true -> Prim2SF x = S754_nan.
Proof.
  unfold PrimFloat.is_nan. rewrite FloatAxioms.eqb_spec.
  destruct (Prim2SF x) as [s|s| |s m e]; try done.
  - by destruct s.
  - unfold SFeqb, SFcompare.
    destruct s; rewrite Z.compare_refl, Pos.compare_cont_refl; done.
Qed.

Lemma nan_compares_false x y :
  PrimFloat.is_nan x = true ->
  PrimFloat.eqb x y = false
  /\ PrimFloat.leb x y = false /\ PrimFloat.leb y x = false.
Proof.
  intros Hx%Prim2SF_is_nan.
  rewrite FloatAxioms.eqb_spec, !FloatAxioms.leb_spec, Hx.
  repeat split; try done.
  destruct (Prim2SF y) as [s|s| |s m e]; try done; by destruct s.
Qed.

(** X15.  An approach of an object whose diameter is not a number passes no
    diameter filter with a float for reference value: equality and both
    bounds evaluate to [False], without raising. *)
Theorem unknown_diameter_matches_no_bound approach o op x :
  CloseApproach.neo approach = Some o ->
  PrimFloat.is_nan (NearEarthObject.diameter (neos st !!! o)) = true ->
  __call__ (DiameterFilter op (VFloat x)) st approach = Ok false.
Proof.
  intros Ho Hnan. unfold __call__, get; simpl. rewrite Ho; simpl.
  destruct (nan_compares_false _ x Hnan) as (Heq & Hle & Hge).
  destruct op; simpl; by rewrite ?Heq, ?Hle, ?Hge.
Qed.

End FilterFailures.

(** ** Loading *)

Section Loading.

Import extract.

Variable cd_to_datetime : option string -> Exc datetime.
Variable float_of_string : string -> Exc float.

Local Abbreviation load_neos := (load_neos float_of_string).
Local Abbreviation load_neos_loop := (load_neos_loop float_of_string).
Local Abbreviation dia_of := (dia_of float_of_string).
Local Abbreviation load_approaches :=
  (load_approaches cd_to_datetime float_of_string).
Local Abbreviation load_approaches_loop :=
  (load_approaches_loop cd_to_datetime float_of_string).

Local Arguments new_neo : simpl never.
Local Arguments new_ca : simpl never.

Lemma new_neo_spec st obj :
  let st' := (new_neo st obj).1 in
  let r := (new_neo st obj).2 in
  neos st !! r = None
  /\ neos st' !! r = Some obj
  /\ (forall r', r' <> r -> neos st' !! r' = neos st !! r')
  /\ cas st' = cas st.
Proof.
  unfold new_neo; simpl. split; [|split; [|split]].
  - apply not_elem_of_dom, is_fresh.
  - apply lookup_insert_eq.
  - intros r' Hne. by apply lookup_insert_ne.
  - done.
Qed.

Lemma new_ca_spec st obj :
  let st' := (new_ca st obj).1 in
  let r := (new_ca st obj).2 in
  cas st !! r = None
  /\ cas st' !! r = Some obj
  /\ (forall r', r' <> r -> cas st' !! r' = cas st !! r')
  /\ neos st' = neos st.
Proof.
  unfold new_ca; simpl. split; [|split; [|split]].
  - apply not_elem_of_dom, is_fresh.
  - apply lookup_insert_eq.
  - intros r' Hne. by apply lookup_insert_ne.
  - done.
Qed.

Lemma load_neos_loop_cons w acc elem rest :
  load_neos_loop w acc (elem :: rest)
  = match dia_of elem with
    | Raise e => (w, Raise e)
    | Ok dia =>
        let a := new_neo (store w) (neo_of_row elem dia) in
        load_neos_loop (MkWorld a.1 (<[pdes_of elem := a.2]> (pdes_dict w)))
          (acc ++ [a.2]) rest
    end.
Proof. done. Qed.

(** What a run of the loop of [load_neos] that ends normally has done. *)
Lemma load_neos_loop_ok rows : forall w acc w' refs,
  load_neos_loop w acc rows = (w', Ok refs) ->
  exists new,
    refs = (acc ++ new)%list
    /\ cas (store w') = cas (store w)
    /\ (forall r o, neos (store w) !! r = Some o ->
          neos (store w') !! r = Some o)
    /\ NoDup new
    /\ Forall (fun r => neos (store w) !! r = None) new
    /\ Forall2 (fun elem r =>
                  exists dia,
                    dia_of elem = Ok dia
                    /\ neos (store w') !! r = Some (neo_of_row elem dia))
               rows new
    /\ (forall s r, pdes_dict w' !! s = Some r ->
          pdes_dict w !! s = Some r
          \/ exists elem, (elem, r) ∈ zip rows new /\ pdes_of elem = s)
    /\ (forall s, is_Some (pdes_dict w' !! s) <->
          is_Some (pdes_dict w !! s) \/ s ∈ (pdes_of <$> rows)).
Proof.
  induction rows as [|elem rest IH]; intros w acc w' refs.
  - intros [= <- <-]. exists []. rewrite app_nil_r.
    repeat split; try done; try constructor; try by eauto.
    + by intros [H | H%elem_of_nil].
  - rewrite load_neos_loop_cons.
    destruct (dia_of elem) as [dia|e] eqn:Hdia; [|done].
    pose proof (new_neo_spec (store w) (neo_of_row elem dia))
      as (Hfresh & Hnew & Hold & Hcas).
    destruct (new_neo (store w) _) as [st1 r] eqn:Halloc. simpl in *.
    intros (new & -> & Hc & Hkeep & Hnd & Hnone & Hobjs & Hdict & Hdom)%IH.
    simpl in *.
    assert (forall r' o, neos (store w) !! r' = Some o ->
              neos st1 !! r' = Some o) as Hold'.
    { intros r' o Hr'. rewrite Hold; [done|]. intros ->. congruence. }
    exists (r :: new). rewrite <- app_assoc. split; [done|].
    split; [congruence|]. split; [by eauto|].
    split.
    { constructor; [|done]. intros Hin.
      rewrite Forall_forall in Hnone. specialize (Hnone r Hin).
      congruence. }
    split.
    { constructor; [done|]. eapply Forall_impl; [exact Hnone|].
      simpl. intros r' Hr'.
      destruct (neos (store w) !! r') as [o|] eqn:E; [|done].
      apply Hold' in E. congruence. }
    split.
    { constructor; [|done]. exists dia. split; [done|]. by apply Hkeep. }
    split.
    { intros s r' Hs. destruct (Hdict s r' Hs) as [Hins | (el & Hin & Hel)].
      - destruct (decide (pdes_of elem = s)) as [<- | Hne].
        + rewrite lookup_insert_eq in Hins. injection Hins as <-.
          right. exists elem. split; [|done]. apply elem_of_cons. by left.
        + rewrite lookup_insert_ne in Hins by done. by left.
      - right. exists el. split; [|done]. apply elem_of_cons. by right. }
    intros s. rewrite Hdom, elem_of_cons.
    destruct (decide (pdes_of elem = s)) as [<- | Hne].
    + rewrite lookup_insert_eq. split; [by eauto|]. intros _. left. by eauto.
    + rewrite lookup_insert_ne by done. split.
      * intros [H | H]; [by left | right; by right].
      * intros [H | [-> | H]]; [by left | done | by right].
Qed.

Lemma pdes_of_nonempty elem : pdes_of elem <> "".
Proof.
  unfold pdes_of. destruct (elem !! "pdes") as [s|]; simpl; [|done].
  destruct (String.eqb_spec s ""); simpl; [done | by auto].
Qed.

Lemma name_of_nonempty elem : name_of elem <> Some "".
Proof.
  unfold name_of. destruct (elem !! "name") as [s|]; simpl; [|done].
  destruct (String.eqb_spec s ""); simpl; [done | congruence].
Qed.

(** X16.  [load_neos] returns one new object per row, in the order of the
    rows and all distinct, and leaves the objects and approaches that
    existed untouched. The object of a row bears the row's designation, or
    ["nan"] when the row has none, so never the empty string; its name is
    the row's, or [None] when the row has none or an empty one, so never
    the empty string; its hazard flag is a boolean, [True] exactly for
    ["Y"]; its diameter is the parsed field, or not-a-number when the field
    is missing or empty; and it has no approaches. *)
Theorem load_neos_builds_normalised_objects w rows w' refs :
  load_neos w rows = (w', Ok refs) ->
  NoDup refs
  /\ cas (store w') = cas (store w)
  /\ (forall r o, neos (store w) !! r = Some o ->
        neos (store w') !! r = Some o /\ r ∉ refs)
  /\ Forall2 (fun elem r =>
                let o := neos (store w') !!! r in
                NearEarthObject.designation o = pdes_of elem
                /\ NearEarthObject.designation o <> ""
                /\ NearEarthObject.name o = name_of elem
                /\ NearEarthObject.name o <> Some ""
                /\ NearEarthObject.hazardous o = Some (ishaz_of elem)
                /\ dia_of elem = Ok (NearEarthObject.diameter o)
                /\ NearEarthObject.approaches o = [])
             rows refs.
Proof.
  intros (new & -> & Hc & Hkeep & Hnd & Hnone & Hobjs & _)%load_neos_loop_ok.
  simpl. split; [done|]. split; [done|]. split.
  - intros r o Hr. split; [by apply Hkeep|]. intros Hin.
    rewrite Forall_forall in Hnone. specialize (Hnone r Hin). congruence.
  - eapply Forall2_impl; [exact Hobjs|]. simpl.
    intros elem r (dia & Hdia & Hobj).
    rewrite lookup_total_alt, Hobj; simpl.
    repeat split; try done.
    + apply pdes_of_nonempty.
    + apply name_of_nonempty.
Qed.

Lemma load_neos_loop_app pre l : forall w acc,
  load_neos_loop w acc (pre ++ l)
  = match load_neos_loop w acc pre with
    | (w1, Ok acc1) => load_neos_loop w1 acc1 l
    | (w1, Raise e) => (w1, Raise e)
    end.
Proof.
  induction pre as [|elem pre IH]; intros w acc; [done|].
  rewrite <- app_comm_cons, !load_neos_loop_cons.
  destruct (dia_of elem); [|done]. apply IH.
Qed.

Lemma load_neos_loop_parses rows : forall w acc,
  Forall (fun elem => exists dia, dia_of elem = Ok dia) rows ->
  exists refs, (load_neos_loop w acc rows).2 = Ok refs.
Proof.
  induction rows as [|elem rows IH]; intros w acc Hall; [by eexists|].
  apply Forall_cons in Hall as [[dia Hdia] Hall].
  rewrite load_neos_loop_cons, Hdia. by apply IH.
Qed.

(** X17.  [load_neos] raises what [float] raises on the first diameter it
    cannot parse, and returns no list; the objects of the rows before that
    one have been created and stay filed in [pdes_dict]. *)
Theorem load_neos_stops_at_bad_diameter w pre elem post e :
  Forall (fun row => exists dia, dia_of row = Ok dia) pre ->
  dia_of elem = Raise e ->
  (load_neos w (pre ++ elem :: post)).2 = Raise e
  /\ (load_neos w (pre ++ elem :: post)).1 = (load_neos w pre).1.
Proof.
  intros Hpre Helem. unfold extract.load_neos.
  rewrite load_neos_loop_app.
  destruct (load_neos_loop_parses pre w [] Hpre) as [refs Hrefs].
  destruct (load_neos_loop w [] pre) as [w1 r]. simpl in Hrefs. subst r.
  by rewrite load_neos_loop_cons, Helem.
Qed.

Lemma load_neos_loop_consistent rows : forall w acc,
  consistent w -> consistent (load_neos_loop w acc rows).1.
Proof.
  induction rows as [|elem rows IH]; intros w acc Hw; [done|].
  rewrite load_neos_loop_cons.
  destruct (dia_of elem) as [dia|e]; [|done].
  pose proof (new_neo_spec (store w) (neo_of_row elem dia))
    as (Hfresh & Hnew & Hold & _).
  apply IH. intros s r. simpl.
  destruct (decide (pdes_of elem = s)) as [<- | Hne].
  - rewrite lookup_insert_eq. intros [= <-]. by eexists.
  - rewrite lookup_insert_ne by done. intros (o & Ho & Hd)%Hw.
    exists o. split; [|done]. rewrite Hold; [done|]. intros ->. congruence.
Qed.

(** X18.  Whether it returns or raises, [load_neos] keeps [pdes_dict]
    consistent: every designation filed in it leads to a stored object that
    bears this designation. *)
Theorem load_neos_keeps_dict_consistent w rows :
  consistent w -> consistent (load_neos w rows).1.
Proof. apply load_neos_loop_consistent. Qed.

Lemma load_approaches_loop_cons w acc key rest :
  load_approaches_loop w acc (key :: rest)
  = match key !! 0%nat, key !! 3%nat, key !! 4%nat, key !! 7%nat with
    | Some desig, Some time, Some dist, Some velocity =>
        let a :=
          new_ca (store w)
            (create_ca cd_to_datetime float_of_string desig time dist
               velocity (desig ≫= (fun s => pdes_dict w !! s))) in
        load_approaches_loop (MkWorld a.1 (pdes_dict w)) (acc ++ [a.2]) rest
    | _, _, _, _ => (w, RaisedIndexError)
    end.
Proof. done. Qed.

(** What a run of the loop of [load_approaches] that ends normally has
    done. *)
Lemma load_approaches_loop_ok rows : forall w acc w' refs,
  load_approaches_loop w acc rows = (w', Loaded refs) ->
  exists new,
    refs = (acc ++ new)%list
    /\ neos (store w') = neos (store w)
    /\ pdes_dict w' = pdes_dict w
    /\ (forall r o, cas (store w) !! r = Some o ->
          cas (store w') !! r = Some o)
    /\ NoDup new
    /\ Forall (fun r => cas (store w) !! r = None) new
    /\ Forall2 (fun key r =>
                  exists desig time dist velocity,
                    key !! 0%nat = Some desig /\ key !! 3%nat = Some time
                    /\ key !! 4%nat = Some dist
                    /\ key !! 7%nat = Some velocity
                    /\ cas (store w') !! r
                       = Some (create_ca cd_to_datetime float_of_string
                                 desig time dist velocity
                                 (desig ≫= (fun s => pdes_dict w !! s))))
               rows new.
Proof.
  induction rows as [|key rest IH]; intros w acc w' refs.
  - intros [= <- <-]. exists []. rewrite app_nil_r.
    repeat split; try done; constructor.
  - rewrite load_approaches_loop_cons.
    destruct (key !! 0%nat) as [desig|] eqn:H0; [|done].
    destruct (key !! 3%nat) as [time|] eqn:H3; [|done].
    destruct (key !! 4%nat) as [dist|] eqn:H4; [|done].
    destruct (key !! 7%nat) as [velocity|] eqn:H7; [|done].
    set (obj := create_ca cd_to_datetime float_of_string desig time dist
                  velocity (desig ≫= (fun s => pdes_dict w !! s))).
    pose proof (new_ca_spec (store w) obj) as (Hfresh & Hnew & Hold & Hneos).
    destruct (new_ca (store w) obj) as [st1 r] eqn:Halloc. simpl in *.
    intros (new & -> & Hn & Hd & Hkeep & Hnd & Hnone & Hobjs)%IH.
    simpl in *.
    assert (forall r' o, cas (store w) !! r' = Some o ->
              cas st1 !! r' = Some o) as Hold'.
    { intros r' o Hr'. rewrite Hold; [done|]. intros ->. congruence. }
    exists (r :: new). rewrite <- app_assoc. split; [done|].
    split; [congruence|]. split; [done|]. split; [by eauto|].
    split.
    { constructor; [|done]. intros Hin.
      rewrite Forall_forall in Hnone. specialize (Hnone r Hin).
      congruence. }
    split.
    { constructor; [done|]. eapply Forall_impl; [exact Hnone|].
      simpl. intros r' Hr'.
      destruct (cas (store w) !! r') as [o|] eqn:E; [|done].
      apply Hold' in E. congruence. }
    constructor; [|done].
    exists desig, time, dist, velocity. repeat split; try done.
    by apply Hkeep.
Qed.

(** X19.  [load_approaches] returns one new approach per row, in the order
    of the rows and all distinct, and changes neither the objects nor
    [pdes_dict]. The approach of a row bears the row's designation, and its
    [neo] is what [pdes_dict] files under that designation, [None] when
    nothing is; so, [pdes_dict] being consistent, an approach refers either
    to no object or to an object that bears its designation. *)
Theorem load_approaches_resolves_designations w rows w' refs :
  consistent w ->
  load_approaches w rows = (w', Loaded refs) ->
  NoDup refs
  /\ neos (store w') = neos (store w)
  /\ pdes_dict w' = pdes_dict w
  /\ Forall2 (fun key a =>
                let approach := cas (store w') !!! a in
                CloseApproach.designation approach
                = NearEarthObject.str (row_designation key)
                /\ CloseApproach.neo approach
                   = row_designation key ≫= (fun s => pdes_dict w !! s)
                /\ forall o,
                     CloseApproach.neo approach = Some o ->
                     NearEarthObject.designation (neos (store w') !!! o)
                     = CloseApproach.designation approach)
             rows refs.
Proof.
  intros Hw (new & -> & Hn & Hd & _ & Hnd & _ & Hobjs)%load_approaches_loop_ok.
  simpl. split; [done|]. split; [done|]. split; [done|].
  eapply Forall2_impl; [exact Hobjs|]. simpl.
  intros key a (desig & time & dist & velocity & H0 & _ & _ & _ & Hobj).
  rewrite lookup_total_alt, Hobj. unfold row_designation. rewrite H0. simpl.
  split; [done|]. split; [done|].
  intros o Ho. destruct desig as [s|]; simpl in Ho; [|done].
  destruct (Hw s o Ho) as (obj & Hobj' & <-).
  by rewrite Hn, lookup_total_alt, Hobj'.
Qed.

Lemma row_fields (key : json_row) :
  (length key < 8)%nat
  \/ exists desig time dist velocity,
       key !! 0%nat = Some desig /\ key !! 3%nat = Some time
       /\ key !! 4%nat = Some dist /\ key !! 7%nat = Some velocity.
Proof.
  destruct (decide (length key < 8)%nat) as [Hlt|Hge]; [by left|right].
  destruct (lookup_lt_is_Some_2 key 0) as [a Ha]; [lia|].
  destruct (lookup_lt_is_Some_2 key 3) as [b Hb]; [lia|].
  destruct (lookup_lt_is_Some_2 key 4) as [c Hc]; [lia|].
  destruct (lookup_lt_is_Some_2 key 7) as [d Hd]; [lia|].
  by exists a, b, c, d.
Qed.

Lemma load_approaches_loop_short rows : forall w acc,
  (load_approaches_loop w acc rows).2 = RaisedIndexError
  <-> Exists (fun key : json_row => (length key < 8)%nat) rows.
Proof.
  induction rows as [|key rest IH]; intros w acc.
  - simpl. split; [done|]. by intros H%Exists_nil.
  - rewrite load_approaches_loop_cons, Exists_cons.
    destruct (row_fields key) as [Hlt | (a & b & c & d & -> & -> & -> & Hd)].
    + assert (key !! 7%nat = None) as -> by (apply lookup_ge_None_2; lia).
      destruct (key !! 0%nat), (key !! 3%nat), (key !! 4%nat); simpl;
        split; auto.
    + rewrite Hd. apply lookup_lt_Some in Hd. rewrite IH.
      split; [by right|]. intros [H | H]; [lia | done].
Qed.

(** X20.  [load_approaches] raises [IndexError] exactly when some row has
    fewer than eight fields; otherwise it returns the list of approaches. *)
Theorem load_approaches_needs_eight_fields w rows :
  (load_approaches w rows).2 = RaisedIndexError
  <-> Exists (fun key : json_row => (length key < 8)%nat) rows.
Proof. apply load_approaches_loop_short. Qed.

Lemma link_ok_iff l : forall st,
  (NEODatabase.link st l).2 = Ok ()
  <-> Forall (fun a => CloseApproach.neo (cas st !!! a) <> None) l.
Proof.
  induction l as [|a rest IH]; intros st; simpl.
  - split; [constructor | done].
  - rewrite Forall_cons.
    destruct (CloseApproach.neo (cas st !!! a)) as [o|]; simpl.
    + rewrite IH. simpl. split; [by intros H; split | by intros [_ H]].
    + split; [done | by intros [H _]].
Qed.

Lemma Forall2_Forall_iff {X Y} (P : X -> Prop) (Q : Y -> Prop) l1 l2 :
  Forall2 (fun x y => P x <-> Q y) l1 l2 -> Forall P l1 <-> Forall Q l2.
Proof.
  induction 1 as [|x y l1 l2 Hxy _ IH]; [done|].
  by rewrite !Forall_cons, Hxy, IH.
Qed.

Lemma Forall2_zip {X Y} (R : X -> Y -> Prop) l1 l2 x y :
  Forall2 R l1 l2 -> (x, y) ∈ zip l1 l2 -> R x y.
Proof.
  induction 1 as [|x' y' l1 l2 Hxy _ IH]; simpl.
  - by intros H%elem_of_nil.
  - intros [[= -> ->] | H]%elem_of_cons; [done | by apply IH].
Qed.

Lemma Forall2_elem_of_r {X Y} (R : X -> Y -> Prop) l1 l2 y :
  Forall2 R l1 l2 -> y ∈ l2 -> exists x, x ∈ l1 /\ R x y.
Proof.
  induction 1 as [|x' y' l1 l2 Hxy _ IH].
  - by intros H%elem_of_nil.
  - intros [-> | H]%elem_of_cons.
    + exists x'. split; [by left | done].
    + destruct (IH H) as (x & Hx & HR). exists x. split; [by right | done].
Qed.

Lemma Forall2_fmap_eq {X Y Z} (f : X -> Z) (g : Y -> Z) l1 l2 :
  Forall2 (fun x y => f x = g y) l1 l2 -> f <$> l1 = g <$> l2.
Proof.
  induction 1 as [|x y l1 l2 Hxy _ IH]; [done|].
  rewrite !fmap_cons. congruence.
Qed.

(** X21.  After the two loaders, run from an empty [pdes_dict], the
    database can be built exactly when every approach row carries a
    designation that some object row carries (["nan"] standing for a
    missing one); otherwise the constructor raises. *)
Theorem database_builds_iff_designations_known
    st0 rows_n rows_a w1 ns w2 cs :
  load_neos (MkWorld st0 ∅) rows_n = (w1, Ok ns) ->
  load_approaches w1 rows_a = (w2, Loaded cs) ->
  (NEODatabase.__init__ (store w2) ns cs).2 = Ok (NEODatabase.Build ns cs)
  <-> Forall (fun key =>
                exists s, row_designation key = Some s
                          /\ s ∈ (pdes_of <$> rows_n))
             rows_a.
Proof.
  intros (new & -> & _ & _ & _ & _ & _ & _ & Hdom)%load_neos_loop_ok.
  intros (new' & -> & _ & _ & _ & _ & _ & Hobjs)%load_approaches_loop_ok.
  simpl in *. rewrite init_result.
  transitivity ((NEODatabase.link (store w2) new').2 = Ok ()).
  { destruct (NEODatabase.link (store w2) new').2 as [[]|e]; simpl;
      split; done. }
  rewrite link_ok_iff. symmetry. apply Forall2_Forall_iff.
  eapply Forall2_impl; [exact Hobjs|]. simpl.
  intros key a (desig & time & dist & velocity & H0 & _ & _ & _ & Hobj).
  rewrite lookup_total_alt, Hobj. unfold row_designation. rewrite H0. simpl.
  destruct desig as [s|]; simpl.
  - specialize (Hdom s). rewrite lookup_empty in Hdom. split.
    + intros (s' & [= <-] & Hin).
      assert (is_Some (pdes_dict w1 !! s)) as [o ->]; [|done].
      apply Hdom. by right.
    + intros Hsome. exists s. split; [done|].
      destruct (pdes_dict w1 !! s) as [o|] eqn:E; [|done].
      destruct (proj1 Hdom) as [[? [=]] | Hin]; by eauto.
  - split; [by intros (s & [=] & _) | done].
Qed.

(** X22.  After the two loaders, run from an empty [pdes_dict] on object
    rows with pairwise distinct designations, the object an approach refers
    to is the one that the lookup by the approach's designation returns. *)
Theorem linked_object_is_found_by_designation
    st0 rows_n rows_a w1 ns w2 cs a o :
  NoDup (pdes_of <$> rows_n) ->
  load_neos (MkWorld st0 ∅) rows_n = (w1, Ok ns) ->
  load_approaches w1 rows_a = (w2, Loaded cs) ->
  a ∈ cs ->
  CloseApproach.neo (cas (store w2) !!! a) = Some o ->
  NEODatabase.get_neo_by_designation (NEODatabase.Build ns cs) (store w2)
    (CloseApproach.designation (cas (store w2) !!! a)) = Some o.
Proof.
  intros Hnodup.
  intros (new & -> & _ & _ & _ & _ & Hneos & Hdict & _)%load_neos_loop_ok.
  intros (new' & -> & Hsame & _ & _ & _ & _ & Hobjs)%load_approaches_loop_ok.
  simpl in *. intros Ha.
  destruct (Forall2_elem_of_r _ _ _ _ Hobjs Ha)
    as (key & _ & desig & time & dist & velocity & H0 & _ & _ & _ & Hobj).
  rewrite lookup_total_alt, Hobj. simpl.
  destruct desig as [s|]; simpl; [|done]. intros Hs.
  destruct (Hdict s o Hs) as [Hempty | (elem & Hin & Hel)];
    [by rewrite lookup_empty in Hempty|].
  assert (forall elem r, (elem, r) ∈ zip rows_n new ->
            NearEarthObject.designation (neos (store w2) !!! r)
            = pdes_of elem) as Hdes.
  { intros el r Hz.
    destruct (Forall2_zip _ _ _ _ _ Hneos Hz) as (dia & _ & Hr).
    by rewrite Hsame, lookup_total_alt, Hr. }
  rewrite <- Hel, <- (Hdes elem o Hin).
  apply find_unique_designation; simpl.
  - replace ((fun r => NearEarthObject.designation (neos (store w2) !!! r))
               <$> new) with (pdes_of <$> rows_n); [done|].
    apply Forall2_fmap_eq. eapply Forall2_impl; [exact Hneos|]. simpl.
    intros el r (dia & _ & Hr). by rewrite Hsame, lookup_total_alt, Hr.
  - by apply elem_of_zip_r in Hin.
Qed.

End Loading.

(** ** Writing *)

Section Writing.

Import write.

Variable st : Store.

Lemma csv_loop_yields pre : forall tail written,
  Forall (fun a => CloseApproach.neo (cas st !!! a) <> None) pre ->
  exists rows,
    Forall2 (is_row_of st) pre rows
    /\ csv_loop st (yields pre tail) written
       = csv_loop st tail (written ++ rows).
Proof.
  induction pre as [|a pre IH]; intros tail written Hall; simpl.
  - exists []. split; [constructor | by rewrite app_nil_r].
  - apply Forall_cons in Hall as [Ha Hall].
    destruct (CloseApproach.neo (cas st !!! a)) as [o|] eqn:Ho; [|done].
    destruct (IH tail (written ++ [Fields
      (Row (CloseApproach.time (cas st !!! a))
         (CloseApproach.distance (cas st !!! a))
         (CloseApproach.velocity (cas st !!! a))
         (CloseApproach.designation (cas st !!! a))
         (NearEarthObject.name (neos st !!! o))
         (NearEarthObject.diameter (neos st !!! o))
         (NearEarthObject.hazardous (neos st !!! o)))])%list Hall)
      as (rows & Hrows & ->).
    eexists (_ :: rows). split.
    + constructor; [|done]. exists o. by split.
    + by rewrite <- app_assoc.
Qed.

(** X23.  [write_to_csv] writes the header, then one row per approach in
    the order the generator yields them, as long as the approaches have an
    object. It ends normally when the generator is exhausted; it ends with
    the generator's exception when the generator raises, and with an
    [AttributeError] at the first approach without object; in both cases
    the file keeps the header and the rows written before. *)
Theorem write_to_csv_writes_rows_until_failure pre tail :
  Forall (fun a => CloseApproach.neo (cas st !!! a) <> None) pre ->
  match tail with
  | Yield a _ => CloseApproach.neo (cas st !!! a) = None
  | _ => True
  end ->
  exists rows,
    Forall2 (is_row_of st) pre rows
    /\ write_to_csv st (yields pre tail) = (Header :: rows, csv_ending st tail).
Proof.
  intros Hpre Htail.
  destruct (csv_loop_yields pre tail [Header] Hpre) as (rows & Hrows & Heq).
  exists rows. split; [done|]. unfold write_to_csv. rewrite Heq.
  destruct tail as [|e|a rest]; simpl; [done..|]. by rewrite Htail.
Qed.



Variable datetime_to_str : option datetime -> Exc string.



End Writing.

(** ** Display form and approach defaults *)

Section Display.

Lemma append_same_prefix (s t : string) : (s ++ t)%string = s -> t = "".
Proof.
  induction s as [|c s IH]; simpl; [done|]. intros [= H]. by apply IH.
Qed.

(** X26.  The display form of an object is its designation alone exactly
    when its name is [None] or the empty string; with any other name it is
    the designation followed by the name in parentheses. *)
Theorem fullname_shows_name_when_present (o : NearEarthObject.t) :
  (NearEarthObject.fullname o = NearEarthObject.designation o
   <-> NearEarthObject.name o = None \/ NearEarthObject.name o = Some "")
  /\ (forall n,
        NearEarthObject.name o = Some n -> n <> "" ->
        NearEarthObject.fullname o
        = (NearEarthObject.designation o ++ " (" ++ n ++ ")")%string).
Proof.
  unfold NearEarthObject.fullname.
  destruct o as [d [n|] dia h apps]; simpl.
  - destruct (String.eqb_spec n "") as [-> | Hne]; simpl.
    + split; [by split; auto | by intros ? [= <-]].
    + split.
      * split; [by intros H%append_same_prefix | by intros [? | [= ?]]].
      * by intros ? [= <-] _.
  - split; [by split; auto | done].
Qed.

Variable cd_to_datetime : option string -> Exc datetime.
Variable float_of_string : string -> Exc float.

(** X27.  Building an approach never raises. Its distance and its velocity
    are the parsed fields, and [0.0] for a field that is missing or that
    [float] rejects; its time is [None] exactly when [cd_to_datetime]
    raises; its designation is the [pdes] field as a string and its [neo]
    the object it is given. *)
Theorem approach_defaults data :
  let a := CloseApproach.__init__ cd_to_datetime float_of_string data in
  let parsed field :=
    match field with
    | Some s => match float_of_string s with Ok x => x | Raise _ => 0%float end
    | None => 0%float
    end in
  CloseApproach.distance a = parsed (CloseApproach.data_distance data)
  /\ CloseApproach.velocity a = parsed (CloseApproach.data_velocity data)
  /\ (CloseApproach.time a = None
      <-> exists e, cd_to_datetime (CloseApproach.data_time data) = Raise e)
  /\ CloseApproach.designation a
     = NearEarthObject.str (CloseApproach.data_pdes data)
  /\ CloseApproach.neo a = CloseApproach.data_neos data.
Proof.
  destruct data as [pdes time dist vel neo_]; simpl.
  unfold CloseApproach.float_.
  split; [by destruct dist as [s|]; [destruct (float_of_string s)|]|].
  split; [by destruct vel as [s|]; [destruct (float_of_string s)|]|].
  split; [|done].
  destruct (cd_to_datetime time) as [t|e]; simpl; split; try done.
  - by intros [e [=]].
  - by eauto.
Qed.

End Display.

(** ** The theorems above at the sample data *)

Lemma get_neo_by_designation_unique_witness :
  NEODatabase.get_neo_by_designation Sample.db Sample.linked "99942"
  = Some 3%nat.
Proof.
  apply (get_neo_by_designation_unique Sample.linked Sample.db 3%nat);
    by_evaluation.
Defined.

Lemma failed_construction_leaves_partial_links_witness :
  let r :=
    NEODatabase.__init__ Sample.unlinked [0; 1; 2; 3; 4]%nat
      [0; 1; 5; 2]%nat in
  r.2 = Raise (AttributeError "NoneType" "approaches")
  /\ NearEarthObject.approaches (neos r.1 !!! 1%nat) = [1%nat]
  /\ NearEarthObject.approaches (neos r.1 !!! 2%nat) = [].
Proof.
  destruct (failed_construction_leaves_partial_links Sample.unlinked
              [0; 1; 2; 3; 4]%nat [0; 1]%nat 5%nat [2%nat])
    as [Hraise Hlinks].
  - by_evaluation.
  - vm_compute. reflexivity.
  - split; [exact Hraise|]. split; [exact (Hlinks 1%nat)|].
    exact (Hlinks 2%nat).
Defined.

Lemma limit_stops_after_n_witness :
  let g := Yield 1 (Yield 2 (Throw TypeError)) in
  yielded (limit g (Some 2)) = [1; 2] /\ raised (limit g (Some 2)) = None.
Proof.
  destruct (limit_stops_after_n (Yield 1 (Yield 2 (Throw TypeError))) 2)
    as (Hy & Hr & _); [lia|].
  split; [exact Hy|]. apply Hr. simpl. lia.
Defined.

Lemma limit_negative_yields_nothing_witness :
  limit (iter [1; 2; 3]) (Some (-1)) = Stop.
Proof. apply limit_negative_yields_nothing. lia. Defined.

Lemma limited_query_reads_a_prefix_witness :
  let self := NEODatabase.Build [0; 1; 2; 3; 4]%nat [1; 3; 5; 0]%nat in
  let filters := [HazardFilter operator.eq (VBool true)] in
  limit (NEODatabase.query self Sample.linked filters) (Some 2)
  = iter [1; 3]%nat
  /\ raised (NEODatabase.query self Sample.linked filters)
     = Some (AttributeError "NoneType" "hazardous").
Proof.
  split; [|vm_compute; reflexivity].
  apply (limited_query_reads_a_prefix
           (NEODatabase.Build [0; 1; 2; 3; 4]%nat [1; 3; 5; 0]%nat)
           Sample.linked [HazardFilter operator.eq (VBool true)]
           [1; 3]%nat [5; 0]%nat 2).
  - lia.
  - reflexivity.
  - vm_compute. reflexivity.
  - vm_compute. lia.
Defined.

Lemma query_selects_by_criteria_witness :
  let c :=
    Criteria None None None None (Some 0.25%float) None None None None
      (Some true) in
  raised (NEODatabase.query Sample.db Sample.linked (filters_of c)) = None
  /\ yielded (NEODatabase.query Sample.db Sample.linked (filters_of c))
     = [1; 3]%nat.
Proof.
  apply (query_selects_by_criteria Sample.linked Sample.db).
  by_evaluation.
Defined.

Lemma distance_velocity_query_never_raises_witness :
  let self := NEODatabase.Build [0; 1; 2; 3; 4]%nat [0; 5; 6; 1]%nat in
  let filters := [DistanceFilter operator.le (VFloat 0.125)] in
  raised (NEODatabase.query self Sample.linked filters) = None
  /\ yielded (NEODatabase.query self Sample.linked filters) = [0; 5; 6]%nat.
Proof.
  apply (distance_velocity_query_never_raises Sample.linked
           (NEODatabase.Build [0; 1; 2; 3; 4]%nat [0; 5; 6; 1]%nat)
           [DistanceFilter operator.le (VFloat 0.125)]).
  constructor; [|constructor]. split; [left; reflexivity|].
  eexists. reflexivity.
Defined.

Lemma unknown_diameter_matches_no_bound_witness :
  AttributeFilter.__call__ (DiameterFilter operator.ge (VFloat 0.5))
    Sample.linked (cas Sample.linked !!! 2%nat)
  = Ok false.
Proof.
  apply (unknown_diameter_matches_no_bound Sample.linked _ 2%nat);
    vm_compute; reflexivity.
Defined.

Lemma sample_neos_loaded :
  extract.load_neos Sample.parse_float Sample.nothing Sample.csv_rows
  = (Sample.after_neos.1, Ok [0; 1; 2]%nat).
Proof. vm_compute. reflexivity. Qed.

Lemma sample_approaches_loaded :
  extract.load_approaches Sample.parse_time Sample.parse_float
    Sample.after_neos.1 Sample.json_rows
  = (Sample.after_approaches.1, extract.Loaded [0; 1]%nat).
Proof. vm_compute. reflexivity. Qed.

Lemma nothing_consistent : consistent Sample.nothing.
Proof. intros s r H. simpl in H. by rewrite lookup_empty in H. Qed.

Lemma sample_dict_consistent : consistent Sample.after_neos.1.
Proof. apply load_neos_loop_consistent, nothing_consistent. Qed.

Lemma load_neos_builds_normalised_objects_witness :
  NoDup [0; 1; 2]%nat
  /\ NearEarthObject.name
       (neos (extract.store Sample.after_neos.1) !!! 1%nat) = None.
Proof.
  destruct (load_neos_builds_normalised_objects Sample.parse_float
              Sample.nothing Sample.csv_rows _ _ sample_neos_loaded)
    as (Hnodup & _ & _ & Hobjs).
  split; [exact Hnodup|].
  apply Forall2_cons in Hobjs as [_ Hobjs].
  apply Forall2_cons in Hobjs as [(_ & _ & Hname & _) _].
  exact Hname.
Defined.

Lemma load_neos_stops_at_bad_diameter_witness :
  (extract.load_neos Sample.parse_float Sample.nothing
     (Sample.csv_rows ++ [Sample.bad_row])).2 = Raise ValueError
  /\ extract.pdes_dict
       (extract.load_neos Sample.parse_float Sample.nothing
          (Sample.csv_rows ++ [Sample.bad_row])).1 !! "2101" = Some 2%nat.
Proof.
  destruct (load_neos_stops_at_bad_diameter Sample.parse_float
              Sample.nothing Sample.csv_rows Sample.bad_row [] ValueError)
    as [Hraise Hworld].
  - repeat constructor; eexists; vm_compute; reflexivity.
  - vm_compute. reflexivity.
  - split; [exact Hraise|]. rewrite Hworld. vm_compute. reflexivity.
Defined.

Lemma load_neos_keeps_dict_consistent_witness :
  consistent
    (extract.load_neos Sample.parse_float Sample.nothing Sample.csv_rows).1.
Proof. apply load_neos_keeps_dict_consistent, nothing_consistent. Defined.

Lemma load_approaches_resolves_designations_witness :
  NoDup [0; 1]%nat
  /\ CloseApproach.neo
       (cas (extract.store Sample.after_approaches.1) !!! 1%nat)
     = Some 2%nat.
Proof.
  destruct (load_approaches_resolves_designations Sample.parse_time
              Sample.parse_float Sample.after_neos.1 Sample.json_rows _ _
              sample_dict_consistent sample_approaches_loaded)
    as (Hnodup & _ & _ & Hobjs).
  split; [exact Hnodup|].
  apply Forall2_cons in Hobjs as [_ Hobjs].
  apply Forall2_cons in Hobjs as [(_ & Hneo & _) _].
  etransitivity; [exact Hneo | vm_compute; reflexivity].
Defined.

Lemma database_builds_iff_designations_known_witness :
  (NEODatabase.__init__ (extract.store Sample.after_approaches.1)
     [0; 1; 2]%nat [0; 1]%nat).2
  = Ok (NEODatabase.Build [0; 1; 2]%nat [0; 1]%nat).
Proof.
  apply (database_builds_iff_designations_known Sample.parse_time
           Sample.parse_float _ _ _ _ _ _ _
           sample_neos_loaded sample_approaches_loaded).
  repeat constructor; eexists; (split; [reflexivity | by_evaluation]).
Defined.

Lemma linked_object_is_found_by_designation_witness :
  NEODatabase.get_neo_by_designation
    (NEODatabase.Build [0; 1; 2]%nat [0; 1]%nat)
    (extract.store Sample.after_approaches.1) "2101"
  = Some 2%nat.
Proof.
  assert (NoDup (extract.pdes_of <$> Sample.csv_rows)) as Hnodup
    by by_evaluation.
  apply (linked_object_is_found_by_designation Sample.parse_time
           Sample.parse_float _ _ _ _ _ _ _ 1%nat 2%nat
           Hnodup sample_neos_loaded sample_approaches_loaded).
  - by_evaluation.
  - vm_compute. reflexivity.
Defined.

Lemma write_to_csv_writes_rows_until_failure_witness :
  let r :=
    write.write_to_csv Sample.linked
      (@yields ref [0; 1]%nat (Yield 5%nat Stop)) in
  r.2 = Raise (AttributeError "NoneType" "name") /\ length r.1 = 3%nat.
Proof.
  destruct (write_to_csv_writes_rows_until_failure Sample.linked
              [0; 1]%nat (Yield 5%nat Stop))
    as (rows & Hrows & Heq).
  - by_evaluation.
  - vm_compute. reflexivity.
  - cbv zeta. rewrite Heq. simpl. split; [reflexivity|].
    apply Forall2_length in Hrows. simpl in Hrows. lia.
Defined.

